(** * The read-path store of v1/services/storage (store.go)

    A shallow embedding of [Store] and its entry points: identity and range
    resolution ([validateArgs]), shard location ([findShardIDs]), the
    row readers ([ReadFilter], [ReadGroup]), the metadata listings
    ([TagKeys], [TagValues], [MeasurementNames], [measurementFields]) and
    the scan fallback ([tagValuesSlow], [cursorHasData]).

    Go values are modelled as follows.
    - [int64] timestamps are [Z], [uint64] identifiers are [N]; store.go
      performs no arithmetic on either, only comparisons with zero.
    - A nillable pointer or interface is an [option]; a slice that the code
      may return as [nil] is a [slice] (nil or backed by a list).
    - A Go result pair [(v, err)] is a pair of options, so that every
      combination the code can return is representable.
    - Calls to the collaborators (MetaClient, TSDBStore, the index cursor
      constructors, shard-group iterators, data cursors) are logged as
      events of a writer monad that also carries Go panics. *)

From Stdlib Require Import ZArith.
From stdpp Require Import base option list strings gmap sorting.

Open Scope Z_scope.

(** ** Go basics *)

Definition error := string.
Definition errors_New (msg : string) : error := msg.

(** A Go result pair [(value, error)]. *)
Definition goret (A : Type) : Type := option A * option error.

(** A Go slice value, which is either [nil] or backed by an array. *)
Inductive slice (A : Type) : Type :=
  | nil_slice
  | mk_slice (elems : list A).
Arguments nil_slice {A}.
Arguments mk_slice {A} elems.

Definition slice_elems {A} (s : slice A) : list A :=
  match s with
  | nil_slice => []
  | mk_slice l => l
  end.

Definition len {A} (s : slice A) : nat := length (slice_elems s).

(** ** influxql expressions (the constructors store.go builds or inspects) *)

Inductive Token := AND | OR | EQ | NEQ | EQREGEX | NEQREGEX | LT | LTE | GT | GTE.

Inductive Expr :=
  | BinaryExpr (Op : Token) (LHS RHS : Expr)
  | ParenExpr (e : Expr)
  | VarRef (Val : string)
  | StringLiteral (Val : string)
  | BooleanLiteral (Val : bool)
  | IntegerLiteral (Val : Z)
  | RegexLiteral (Val : string).

(** Modelled from the spec: the wire predicate of package datatypes, whose
    declaration is not part of the sources at hand, is "a tree of
    comparison/logical nodes as received from the caller". *)
Inductive Node :=
  | NodeLogical (op : Token) (l r : Node)
  | NodeComparison (op : Token) (l r : Node)
  | NodeParen (n : Node)
  | NodeTagRef (name : string)
  | NodeFieldRef (name : string)
  | NodeString (s : string)
  | NodeBool (b : bool)
  | NodeInt (z : Z)
  | NodeRegex (s : string).

Record Predicate := { Root : option Node }.

(** [Predicate.GetRoot], safe on a nil receiver. *)
Definition GetRoot (p : option Predicate) : option Node :=
  match p with
  | None => None
  | Some p => Root p
  end.

(** ** Requests *)

Record Any := { TypeUrl : string; Value : string }.

Record ReadSource := { OrganizationID : N; BucketID : N }.

Definition GetOrgID (src : ReadSource) : N := OrganizationID src.

Record TimestampRange := { Start : Z; End : Z }.

Record ReadFilterRequest := {
  rf_ReadSource : option Any;
  rf_Range : TimestampRange;
  rf_Predicate : option Predicate
}.

Record ReadGroupRequest := {
  rg_ReadSource : option Any;
  rg_Range : TimestampRange;
  rg_Predicate : option Predicate
}.

Record TagKeysRequest := {
  tk_TagsSource : option Any;
  tk_Range : TimestampRange;
  tk_Predicate : option Predicate
}.

Record TagValuesRequest := {
  tv_TagsSource : option Any;
  tv_Range : TimestampRange;
  tv_Predicate : option Predicate;
  tv_TagKey : string
}.

(** ** Metadata (package meta) *)

Record ShardInfo := { shard_ID : N }.

Record ShardGroupInfo := {
  sg_ID : N;
  sg_StartTime : Z;
  sg_EndTime : Z;
  sg_Shards : list ShardInfo
}.

Record RetentionPolicyInfo := { rpi_Name : string }.

Record DatabaseInfo := {
  di_Name : string;
  di_RetentionPolicies : list RetentionPolicyInfo
}.

(** Modelled from the spec: [DatabaseInfo.RetentionPolicy] of package
    meta is not part of the sources at hand; the spec has the lookup fail
    when "the database has no retention policy by the expected default
    name". *)
Definition RetentionPolicy (di : DatabaseInfo) (name : string)
  : option RetentionPolicyInfo :=
  List.find (fun rpi => String.eqb (rpi_Name rpi) name) (di_RetentionPolicies di).

(** ** Storage engine values *)

Record Shard := { sh_id : N }.

Inductive Authorizer := OpenAuthorizer.

Record Measurement := {
  ms_Database : string;
  ms_RetentionPolicy : string;
  ms_SystemIterator : string
}.

Record IteratorOptions := {
  opt_OrgID : N;
  opt_Condition : option Expr;
  opt_Authorizer : Authorizer
}.

(** A value of an auxiliary field of a point: [p.Aux[0].(string)] succeeds
    on the first form only. *)
Inductive AuxValue :=
  | AuxString (s : string)
  | AuxOther.

Record FloatPoint := { Aux : list AuxValue }.

(** A query iterator: the points a float iterator returns from [Next]
    before the first nil point, or an iterator of another type. *)
Inductive Iterator :=
  | FloatIterator (points : list FloatPoint)
  | OtherIterator.

Record ShardGroup := {
  sgrp_ids : list N;
  CreateIterator : Measurement -> IteratorOptions -> goret Iterator
}.

Record TagKeys_t := { tkeys_Measurement : string; Keys : list string }.
Record KeyValue := { kv_Key : string; kv_Value : string }.
Record TagValues_t := { tvals_Measurement : string; Values : list KeyValue }.

(** The concrete types behind [cursors.Cursor]. *)
Inductive CursorKind :=
  | IntegerArrayCursor
  | FloatArrayCursor
  | UnsignedArrayCursor
  | BooleanArrayCursor
  | StringArrayCursor
  | UnknownCursor.

(** An array cursor: its concrete type and the timestamps of the arrays its
    successive [Next] calls return; once they are used up [Next] returns an
    array of length zero. *)
Record Cursor := {
  cur_kind : CursorKind;
  cur_batches : list (list Z)
}.

(** [models.Tags]: key/value pairs. *)
Definition Tags := list (string * string).

(** Modelled from the spec: [models.Tags.Get] is not part of the sources at
    hand; it yields "the target tag's value on that series", and nil (the
    empty string once converted) when the series has no such tag. *)
Fixpoint Tags_Get (t : Tags) (key : string) : string :=
  match t with
  | [] => ""
  | (k, v) :: t' => if String.eqb k key then v else Tags_Get t' key
  end.

(** Modelled from the spec: a series row as package reads hands it to the
    result set, "one series' (tags, field) combination"; its data cursor is
    opened for a time range and may be nil. *)
Record SeriesRow := {
  row_tags : Tags;
  row_cursor : Z -> Z -> option Cursor
}.

(** Modelled from the spec: [reads.SeriesCursor], the rows it yields. *)
Record SeriesCursor := { sc_rows : list SeriesRow }.

(** Modelled from the spec: the value built by [reads.NewFilteredResultSet],
    a series cursor bounded by a time range. *)
Record ResultSet := {
  rs_start : Z;
  rs_end : Z;
  rs_cur : SeriesCursor
}.

Definition NewFilteredResultSet (start end_ : Z) (cur : SeriesCursor) : ResultSet :=
  {| rs_start := start; rs_end := end_; rs_cur := cur |}.

(** [cursors.StringIterator]: the package's shared empty iterator or an
    iterator over a slice. *)
Inductive StringIterator :=
  | EmptyStringIterator
  | NewStringSliceIterator (names : list string).

(** The strings an iterator yields. *)
Definition iterator_strings (it : StringIterator) : list string :=
  match it with
  | EmptyStringIterator => []
  | NewStringSliceIterator names => names
  end.

(** ** Collaborator calls and the monad that logs them *)

Inductive Event :=
  | MetaDatabase (name : string)
  | MetaShardGroupsByTimeRange (database policy : string) (min max : Z)
  | StoreMeasurementNames (auth : Authorizer) (database : string) (cond : option Expr)
  | StoreShardGroup (ids : slice N)
  | StoreShards (ids : slice N)
  | StoreTagKeys (auth : Authorizer) (ids : slice N) (cond : option Expr)
  | StoreTagValues (auth : Authorizer) (ids : slice N) (cond : option Expr)
  | IndexSeriesCursor (pred : option Predicate) (shards : list Shard)
  | IndexSeriesCursorInfluxQLPred (pred : option Expr) (shards : list Shard)
  | GroupCreateIterator (ids : list N) (ms : Measurement) (opts : IteratorOptions)
  | IteratorClose
  | CursorNext (c : Cursor)
  | CursorClose (c : Cursor).

(** Events of the metadata service, as opposed to the storage engine. *)
Definition is_meta_event (e : Event) : bool :=
  match e with
  | MetaDatabase _ | MetaShardGroupsByTimeRange _ _ _ _ => true
  | _ => false
  end.

Inductive res (A : Type) : Type :=
  | Done (a : A)
  | Panicked (msg : string).
Arguments Done {A} a.
Arguments Panicked {A} msg.

(** A computation: the calls it made, in order, and how it ended. *)
Definition M (A : Type) : Type := list Event * res A.

Definition trace {A} (m : M A) : list Event := m.1.
Definition result {A} (m : M A) : res A := m.2.

#[global] Instance M_ret : MRet M := fun A a => ([], Done a).

#[global] Instance M_bind : MBind M := fun A B f m =>
  match m with
  | (t, Done a) => let '(t', r) := f a in (t ++ t', r)
  | (t, Panicked msg) => (t, Panicked msg)
  end.

Definition emit (e : Event) : M unit := ([e], Done ()).
Definition panic {A} (msg : string) : M A := ([], Panicked msg).

(** [defer]: the deferred call runs when the body ends, also by a panic. *)
Definition defer {A} (body : M A) (deferred : Event) : M A :=
  (trace body ++ [deferred], result body).

(** Dereference of a pointer that may be nil. *)
Definition deref {A} (p : option A) : M A :=
  match p with
  | Some a => mret a
  | None => panic "invalid memory address or nil pointer dereference"
  end.

(** ** The interfaces of store.go *)

Record TSDBStore := {
  MeasurementNames_ : Authorizer -> string -> option Expr -> list string * option error;
  ShardGroup_ : slice N -> ShardGroup;
  Shards_ : slice N -> list Shard;
  TagKeys_ : Authorizer -> slice N -> option Expr -> list TagKeys_t * option error;
  TagValues_ : Authorizer -> slice N -> option Expr -> list TagValues_t * option error
}.

Record MetaClient := {
  Database_ : string -> option DatabaseInfo;
  ShardGroupsByTimeRange_ : string -> string -> Z -> Z -> list ShardGroupInfo * option error
}.

Record Store := {
  store_TSDBStore : TSDBStore;
  store_MetaClient : MetaClient
}.

Definition NewStore (store : TSDBStore) (metaClient : MetaClient) : Store :=
  {| store_TSDBStore := store; store_MetaClient := metaClient |}.

(** Modelled from the spec: the value built by [reads.NewGroupResultSet],
    "a lazy sequence ... of group boundaries", for the request it was built
    from. *)
Record GroupResultSet := {
  grs_req : ReadGroupRequest;
  grs_groups : list SeriesCursor
}.

(** ** What store.go uses from files that are not at hand

    Constants, tables and functions of packages models, meta, influxdb,
    reads, influxql and of the other files of package storage. They are
    parameters of the development. *)

Class Externals := {
  (** models.MinNanoTime, models.MaxNanoTime *)
  MinNanoTime : Z;
  MaxNanoTime : Z;
  (** influxdb.ID(bucketID).String() *)
  ID_String : N -> string;
  (** meta.DefaultRetentionPolicyName *)
  DefaultRetentionPolicyName : string;
  (** sort.Sort(meta.ShardGroupInfos(groups)) and its sort.Reverse *)
  sort_ShardGroupInfos : list ShardGroupInfo -> list ShardGroupInfo;
  sort_Reverse_ShardGroupInfos : list ShardGroupInfo -> list ShardGroupInfo;
  (** types.UnmarshalAny(&any, &source): the decoded source and the error *)
  UnmarshalAny : Any -> ReadSource * option error;
  (** the reserved-name table and the two reserved keys of package storage *)
  measurementRemap : gmap string string;
  measurementKey : string;
  fieldKey : string;
  (** reads.NodeToExpr, reads.HasFieldValueKey *)
  NodeToExpr : Node -> gmap string string -> option Expr * option error;
  HasFieldValueKey : option Expr -> bool;
  (** influxql.Reduce(expr, nil) *)
  Reduce : option Expr -> option Expr;
  (** predicate helpers of package storage *)
  RewriteExprRemoveFieldKeyAndValue : option Expr -> option Expr;
  HasFieldKeyOrValue : Expr -> bool * bool;
  hasTagKey : Expr -> bool;
  (** index series cursor constructors of package storage *)
  newIndexSeriesCursor : option Predicate -> list Shard -> goret SeriesCursor;
  newIndexSeriesCursorInfluxQLPred : option Expr -> list Shard -> goret SeriesCursor;
  (** reads.NewGroupResultSet(ctx, req, newCursor) *)
  NewGroupResultSet : ReadGroupRequest -> M (goret SeriesCursor) -> M (option GroupResultSet)
}.

(** influxql.CloneExpr is a deep copy; on immutable values it is the
    identity. *)
Definition CloneExpr (e : option Expr) : option Expr := e.

(** Modelled from the spec: [reads.IsTrueBooleanLiteral] is not part of the
    sources at hand; it recognises an expression that is "the literal
    boolean true". *)
Definition IsTrueBooleanLiteral (e : option Expr) : bool :=
  match e with
  | Some (BooleanLiteral b) => b
  | _ => false
  end.

(** [sort.Strings]: ascending in the byte-wise order of Go strings. *)
Definition sort_Strings (l : list string) : list string := merge_sort String.le l.

(** Modelled from the spec: [slices.MergeSortedStrings] is not part of the
    sources at hand; on one sorted slice it is "an order-preserving
    de-duplicating merge pass". *)
Fixpoint MergeSortedStrings (l : list string) : list string :=
  match l with
  | [] => []
  | x :: l' =>
      match l' with
      | [] => [x]
      | y :: _ => if String.eqb x y then MergeSortedStrings l' else x :: MergeSortedStrings l'
      end
  end.

(** A [for ... range] loop over a list with a loop-carried state. *)
Fixpoint for_range {A S : Type} (l : list A) (body : S -> A -> M S) (s : S) : M S :=
  match l with
  | [] => mret s
  | a :: l' => s' ← body s a; for_range l' body s'
  end.

Section StoreMethods.
Context {ext : Externals}.

(** ** store.go *)

Definition GetReadSource (any : Any) : goret ReadSource :=
  let '(source, err) := UnmarshalAny any in
  match err with
  | Some err => (None, Some err)
  | None => (Some source, None)
  end.

(** The unexported twin of [GetReadSource] that the methods call. *)
Definition getReadSource (any : Any) : goret ReadSource := GetReadSource any.

Definition findShardIDs (s : Store) (database rp : string) (desc : bool)
    (start end_ : Z) : M (slice N * option error) :=
  emit (MetaShardGroupsByTimeRange database rp start end_);;
  let '(groups, err) :=
    ShardGroupsByTimeRange_ (store_MetaClient s) database rp start end_ in
  match err with
  | Some err => mret (nil_slice, Some err)
  | None =>
      if decide (length groups = 0%nat) then mret (nil_slice, None)
      else
        let groups :=
          if desc then sort_Reverse_ShardGroupInfos groups
          else sort_ShardGroupInfos groups in
        let shardIDs :=
          foldl (fun shardIDs g =>
                   foldl (fun shardIDs si => shardIDs ++ [shard_ID si])
                         shardIDs (sg_Shards g))
                [] groups in
        mret (mk_slice shardIDs, None)
  end.

Definition validateArgs (s : Store) (orgID bucketID : N) (start end_ : Z)
    : M (string * string * Z * Z * option error) :=
  let database := ID_String bucketID in
  let rp := DefaultRetentionPolicyName in
  emit (MetaDatabase database);;
  match Database_ (store_MetaClient s) database with
  | None => mret ("", "", 0, 0, Some (errors_New "no database"))
  | Some di =>
      match RetentionPolicy di rp with
      | None => mret ("", "", 0, 0, Some (errors_New "invalid retention policy"))
      | Some rpi =>
          let start := if decide (start <= 0) then MinNanoTime else start in
          let end_ := if decide (end_ <= 0) then MaxNanoTime else end_ in
          mret (database, rp, start, end_, None)
      end
  end.

(** Calls into the storage engine, logged. *)
Definition call_Shards (s : Store) (ids : slice N) : M (list Shard) :=
  emit (StoreShards ids);; mret (Shards_ (store_TSDBStore s) ids).

Definition call_ShardGroup (s : Store) (ids : slice N) : M ShardGroup :=
  emit (StoreShardGroup ids);; mret (ShardGroup_ (store_TSDBStore s) ids).

Definition call_newIndexSeriesCursor (pred : option Predicate)
    (shards : list Shard) : M (goret SeriesCursor) :=
  emit (IndexSeriesCursor pred shards);; mret (newIndexSeriesCursor pred shards).

Definition call_newIndexSeriesCursorInfluxQLPred (pred : option Expr)
    (shards : list Shard) : M (goret SeriesCursor) :=
  emit (IndexSeriesCursorInfluxQLPred pred shards);;
  mret (newIndexSeriesCursorInfluxQLPred pred shards).

Definition ReadFilter (s : Store) (req : ReadFilterRequest)
    : M (ReadFilterRequest * goret ResultSet) :=
  match rf_ReadSource req with
  | None => mret (req, (None, Some (errors_New "missing read source")))
  | Some any =>
  match getReadSource any with
  | (_, Some err) => mret (req, (None, Some err))
  | (source, None) =>
  source ← deref source;
  '(database, rp, start, end_, err) ←
    validateArgs s (OrganizationID source) (BucketID source)
                 (Start (rf_Range req)) (End (rf_Range req));
  match err with
  | Some err => mret (req, (None, Some err))
  | None =>
  '(shardIDs, err) ← findShardIDs s database rp false start end_;
  match err with
  | Some err => mret (req, (None, Some err))
  | None =>
  if decide (len shardIDs = 0%nat) then mret (req, (None, None))
  else
  shards ← call_Shards s shardIDs;
  '(ic, err) ← call_newIndexSeriesCursor (rf_Predicate req) shards;
  match err with
  | Some err => mret (req, (None, Some err))
  | None =>
  match ic with
  | None => mret (req, (None, None))
  | Some cur =>
      let req := {| rf_ReadSource := rf_ReadSource req;
                    rf_Range := {| Start := start; End := end_ |};
                    rf_Predicate := rf_Predicate req |} in
      mret (req, (Some (NewFilteredResultSet (Start (rf_Range req))
                                             (End (rf_Range req)) cur), None))
  end end end end end end.

Definition ReadGroup (s : Store) (req : ReadGroupRequest)
    : M (ReadGroupRequest * goret GroupResultSet) :=
  match rg_ReadSource req with
  | None => mret (req, (None, Some (errors_New "missing read source")))
  | Some any =>
  match getReadSource any with
  | (_, Some err) => mret (req, (None, Some err))
  | (source, None) =>
  source ← deref source;
  '(database, rp, start, end_, err) ←
    validateArgs s (OrganizationID source) (BucketID source)
                 (Start (rg_Range req)) (End (rg_Range req));
  match err with
  | Some err => mret (req, (None, Some err))
  | None =>
  '(shardIDs, err) ← findShardIDs s database rp false start end_;
  match err with
  | Some err => mret (req, (None, Some err))
  | None =>
  if decide (len shardIDs = 0%nat) then mret (req, (None, None))
  else
  shards ← call_Shards s shardIDs;
  let req := {| rg_ReadSource := rg_ReadSource req;
                rg_Range := {| Start := start; End := end_ |};
                rg_Predicate := rg_Predicate req |} in
  let newCursor : M (goret SeriesCursor) :=
    '(cur, err) ← call_newIndexSeriesCursor (rg_Predicate req) shards;
    match cur, err with
    | Some cur, None => mret (Some cur, None)
    | _, _ => mret (None, err)
    end in
  rs ← NewGroupResultSet req newCursor;
  match rs with
  | None => mret (req, (None, None))
  | Some rs => mret (req, (Some rs, None))
  end
  end end end end.

Record metaqueryAttributes := {
  orgID : N;
  db : string;
  rp : string;
  start : Z;
  end_ : Z;
  pred : option Expr
}.

(** The predicate block of [TagKeys] (lines 231-248), which [TagValues]
    repeats (lines 347-364): the expression for the index, or the error
    the method returns. *)
Definition indexPredicate (p : option Predicate) : option Expr + error :=
  match GetRoot p with
  | None => inl None
  | Some root =>
      let '(expr, err) := NodeToExpr root measurementRemap in
      match err with
      | Some err => inr err
      | None =>
          if HasFieldValueKey expr then inr (errors_New "field values unsupported")
          else
            let expr :=
              Reduce (RewriteExprRemoveFieldKeyAndValue (CloneExpr expr)) in
            if IsTrueBooleanLiteral expr then inl None else inl expr
      end
  end.

(** The first predicate block of [TagValues] (lines 298-314), whose result
    goes into the attribute bundle. *)
Definition metaPredicate (p : option Predicate) : option Expr + error :=
  match GetRoot p with
  | None => inl None
  | Some root =>
      let '(influxqlPred, err) := NodeToExpr root measurementRemap in
      match err with
      | Some err => inr err
      | None =>
          if HasFieldValueKey influxqlPred
          then inr (errors_New "field values unsupported")
          else
            let influxqlPred := Reduce (CloneExpr influxqlPred) in
            if IsTrueBooleanLiteral influxqlPred then inl None
            else inl influxqlPred
      end
  end.

Definition call_TagKeys (s : Store) (auth : Authorizer) (ids : slice N)
    (cond : option Expr) : M (list TagKeys_t * option error) :=
  emit (StoreTagKeys auth ids cond);;
  mret (TagKeys_ (store_TSDBStore s) auth ids cond).

Definition call_TagValues (s : Store) (auth : Authorizer) (ids : slice N)
    (cond : option Expr) : M (list TagValues_t * option error) :=
  emit (StoreTagValues auth ids cond);;
  mret (TagValues_ (store_TSDBStore s) auth ids cond).

Definition call_MeasurementNames (s : Store) (auth : Authorizer)
    (database : string) (cond : option Expr) : M (list string * option error) :=
  emit (StoreMeasurementNames auth database cond);;
  mret (MeasurementNames_ (store_TSDBStore s) auth database cond).

(** The keys of a Go map, in the order a [range] loop happens to visit
    them. *)
Definition map_keys {V} (m : gmap string V) : list string := (map_to_list m).*1.

Definition TagKeys (s : Store) (req : TagKeysRequest) : M (goret StringIterator) :=
  match tk_TagsSource req with
  | None => mret (None, Some (errors_New "missing read source"))
  | Some any =>
  match getReadSource any with
  | (_, Some err) => mret (None, Some err)
  | (source, None) =>
  source ← deref source;
  '(database, rp, start, end_, err) ←
    validateArgs s (OrganizationID source) (BucketID source)
                 (Start (tk_Range req)) (End (tk_Range req));
  match err with
  | Some err => mret (None, Some err)
  | None =>
  '(shardIDs, err) ← findShardIDs s database rp false start end_;
  match err with
  | Some err => mret (None, Some err)
  | None =>
  if decide (len shardIDs = 0%nat) then mret (Some EmptyStringIterator, None)
  else
  match indexPredicate (tk_Predicate req) with
  | inr err => mret (None, Some err)
  | inl expr =>
  let auth := OpenAuthorizer in
  '(keys, err) ← call_TagKeys s auth shardIDs expr;
  match err with
  | Some err => mret (Some EmptyStringIterator, Some err)
  | None =>
      let m : gmap string bool :=
        <[fieldKey := true]> (<[measurementKey := true]> ∅) in
      let m :=
        foldl (fun m ks => foldl (fun m k => <[k := true]> m) m (Keys ks)) m keys in
      let names := map_keys m in
      mret (Some (NewStringSliceIterator (sort_Strings names)), None)
  end end end end end end.

(** [typedCur.Next()] on a fresh cursor: the call, and the first array the
    cursor returns (the empty array when it has none). *)
Definition call_Next (c : Cursor) : M (list Z) :=
  emit (CursorNext c);; mret (hd [] (cur_batches c)).

Definition cursorHasData (c : Cursor) : M bool :=
  len_ ←
    match cur_kind c with
    | IntegerArrayCursor => ia ← call_Next c; mret (length ia)
    | FloatArrayCursor => ia ← call_Next c; mret (length ia)
    | UnsignedArrayCursor => ia ← call_Next c; mret (length ia)
    | BooleanArrayCursor => ia ← call_Next c; mret (length ia)
    | StringArrayCursor => ia ← call_Next c; mret (length ia)
    | UnknownCursor => panic "unreachable"
    end;
  mret (negb (Nat.eqb len_ 0)).

Definition tagValuesSlow (s : Store) (mqAttrs : metaqueryAttributes)
    (tagKey : string) : M (goret StringIterator) :=
  '(shardIDs, err) ←
    findShardIDs s (db mqAttrs) (rp mqAttrs) false (start mqAttrs) (end_ mqAttrs);
  match err with
  | Some err => mret (None, Some err)
  | None =>
  if decide (len shardIDs = 0%nat) then mret (Some EmptyStringIterator, None)
  else
  shards ← call_Shards s shardIDs;
  '(ic, err) ← call_newIndexSeriesCursorInfluxQLPred (pred mqAttrs) shards;
  match err with
  | Some err => mret (None, Some err)
  | None =>
  match ic with
  | None => mret (None, None)
  | Some cur =>
      let m : gset string := ∅ in
      let rs := NewFilteredResultSet (start mqAttrs) (end_ mqAttrs) cur in
      m ← for_range (sc_rows (rs_cur rs))
            (fun (m : gset string) row =>
               match row_cursor row (rs_start rs) (rs_end rs) with
               | None => mret m
               | Some c =>
                   defer
                     (hasData ← cursorHasData c;
                      if (hasData : bool)
                      then
                        let f := Tags_Get (row_tags row) tagKey in
                        mret ({[ f ]} ∪ m)
                      else mret m)
                     (CursorClose c)
               end) m;
      let names := elements m in
      mret (Some (NewStringSliceIterator (sort_Strings names)), None)
  end end end.

Definition MeasurementNames (s : Store) (mqAttrs : metaqueryAttributes)
    : M (goret StringIterator) :=
  let slow :=
    match pred mqAttrs with
    | Some p => let '(foundField, _) := HasFieldKeyOrValue p in foundField
    | None => false
    end in
  if slow then tagValuesSlow s mqAttrs measurementKey
  else
  let auth := OpenAuthorizer in
  '(values, err) ← call_MeasurementNames s auth (db mqAttrs) (pred mqAttrs);
  match err with
  | Some err => mret (None, Some err)
  | None =>
      let m : gset string :=
        foldl (fun (m : gset string) name => {[ name ]} ∪ m) ∅ values in
      let names := elements m in
      mret (Some (NewStringSliceIterator (sort_Strings names)), None)
  end.

Definition measurementFields (s : Store) (mqAttrs : metaqueryAttributes)
    : M (goret StringIterator) :=
  let slow :=
    match pred mqAttrs with
    | Some p =>
        let '(foundField, _) := HasFieldKeyOrValue p in
        if foundField then true else hasTagKey p
    | None => false
    end in
  if slow then tagValuesSlow s mqAttrs fieldKey
  else
  '(shardIDs, err) ←
    findShardIDs s (db mqAttrs) (rp mqAttrs) false (start mqAttrs) (end_ mqAttrs);
  match err with
  | Some err => mret (None, Some err)
  | None =>
  if decide (len shardIDs = 0%nat) then mret (Some EmptyStringIterator, None)
  else
  sg ← call_ShardGroup s shardIDs;
  let ms := {| ms_Database := db mqAttrs;
               ms_RetentionPolicy := rp mqAttrs;
               ms_SystemIterator := "_fieldKeys" |} in
  let opts := {| opt_OrgID := orgID mqAttrs;
                 opt_Condition := pred mqAttrs;
                 opt_Authorizer := OpenAuthorizer |} in
  emit (GroupCreateIterator (sgrp_ids sg) ms opts);;
  let '(iter, err) := CreateIterator sg ms opts in
  match err with
  | Some err => mret (None, Some err)
  | None =>
  match iter with
  | None => panic "interface conversion: interface is nil"
  | Some iter =>
      defer
        (match iter with
         | OtherIterator => panic "interface conversion: not a FloatIterator"
         | FloatIterator points =>
             fieldNames ← for_range points
                 (fun fieldNames p =>
                    match Aux p with
                    | [] => mret fieldNames
                    | AuxString name :: _ => mret (fieldNames ++ [name])
                    | AuxOther :: _ => panic "interface conversion: not a string"
                    end) [];
             let fieldNames := sort_Strings fieldNames in
             let fieldNames := MergeSortedStrings fieldNames in
             mret (Some (NewStringSliceIterator fieldNames), None)
         end)
        IteratorClose
  end end end.

Definition TagValues (s : Store) (req : TagValuesRequest) : M (goret StringIterator) :=
  match tv_TagsSource req with
  | None => mret (None, Some (errors_New "missing read source"))
  | Some any =>
  match getReadSource any with
  | (_, Some err) => mret (None, Some err)
  | (source, None) =>
  source ← deref source;
  '(db_, rp_, start_, end__, err) ←
    validateArgs s (OrganizationID source) (BucketID source)
                 (Start (tv_Range req)) (End (tv_Range req));
  match err with
  | Some err => mret (None, Some err)
  | None =>
  match metaPredicate (tv_Predicate req) with
  | inr err => mret (None, Some err)
  | inl influxqlPred =>
  let mqAttrs := {| orgID := GetOrgID source; db := db_; rp := rp_;
                    start := start_; end_ := end__; pred := influxqlPred |} in
  let tagKey :=
    match measurementRemap !! tv_TagKey req with
    | Some tagKey => tagKey
    | None => tv_TagKey req
    end in
  if decide (tagKey = "_name") then MeasurementNames s mqAttrs
  else if decide (tagKey = "_field") then measurementFields s mqAttrs
  else
  '(shardIDs, err) ← findShardIDs s db_ rp_ false start_ end__;
  match err with
  | Some err => mret (None, Some err)
  | None =>
  if decide (len shardIDs = 0%nat) then mret (Some EmptyStringIterator, None)
  else
  match indexPredicate (tv_Predicate req) with
  | inr err => mret (None, Some err)
  | inl expr =>
  let tagKeyExpr :=
    BinaryExpr EQ (VarRef "_tagKey") (StringLiteral (tv_TagKey req)) in
  let expr :=
    match expr with
    | Some expr => BinaryExpr AND tagKeyExpr (ParenExpr expr)
    | None => tagKeyExpr
    end in
  let auth := OpenAuthorizer in
  '(values, err) ← call_TagValues s auth shardIDs (Some expr);
  match err with
  | Some err => mret (None, Some err)
  | None =>
      let m : gset string :=
        foldl (fun (m : gset string) kvs =>
                 foldl (fun (m : gset string) kv => {[ kv_Value kv ]} ∪ m)
                       m (Values kvs))
              ∅ values in
      let names := elements m in
      mret (Some (NewStringSliceIterator (sort_Strings names)), None)
  end end end end end end end.

End StoreMethods.

(** ** Vocabulary of the properties *)

(** The shard lookups a computation made, in order. *)
Definition shard_lookups (t : list Event) : list (string * string * Z * Z) :=
  omap (fun e => match e with
                 | MetaShardGroupsByTimeRange d r a b => Some (d, r, a, b)
                 | _ => None
                 end) t.

(** The metadata service has no shard group for a lookup. *)
Definition finds_no_group (s : Store) (q : string * string * Z * Z) : Prop :=
  let '(d, r, a, b) := q in
  ShardGroupsByTimeRange_ (store_MetaClient s) d r a b = ([], None).

(** A call receives zero shards: its shard lookup finds no group. *)
Definition zero_shards {A} (s : Store) (m : M A) : Prop :=
  exists q, head (shard_lookups (trace m)) = Some q /\ finds_no_group s q.

(** Only the metadata service was contacted, never the storage engine. *)
Definition meta_only {A} (m : M A) : Prop :=
  Forall (fun e => is_meta_event e = true) (trace m).

(** An event other than a tag-value query of the index. *)
Definition not_tag_values (e : Event) : Prop :=
  match e with
  | StoreTagValues _ _ _ => False
  | _ => True
  end.

(** The calls the scan fallback may make: the shard lookup, the shards, the
    index series cursor for a native predicate, and the reading and the
    closing of a data cursor. *)
Definition scan_event (e : Event) : Prop :=
  match e with
  | MetaShardGroupsByTimeRange _ _ _ _ | StoreShards _
  | IndexSeriesCursorInfluxQLPred _ _ | CursorNext _ | CursorClose _ => True
  | _ => False
  end.

(** An event other than a shard-group lookup. *)
Definition not_lookup (e : Event) : Prop :=
  match e with
  | MetaShardGroupsByTimeRange _ _ _ _ => False
  | _ => True
  end.

(** Strictly ascending in the byte-wise order: sorted and free of
    duplicates. *)
Definition ascending (l : list string) : Prop :=
  StronglySorted (strict String.le) l.

Section Vocabulary.
Context {ext : Externals}.

Definition clamp_start (start : Z) : Z :=
  if decide (start <= 0) then MinNanoTime else start.
Definition clamp_end (end_ : Z) : Z :=
  if decide (end_ <= 0) then MaxNanoTime else end_.

(** The read source of a request is present, decodes, and names a
    database that has the default retention policy. *)
Definition source_valid (s : Store) (src : option Any) (source : ReadSource) : Prop :=
  exists any di rpi,
    src = Some any /\
    getReadSource any = (Some source, None) /\
    Database_ (store_MetaClient s) (ID_String (BucketID source)) = Some di /\
    RetentionPolicy di DefaultRetentionPolicyName = Some rpi.

(** The shard lookup of a request finds at least one shard. *)
Definition shards_found (s : Store) (source : ReadSource) (range : TimestampRange)
    (ids : slice N) : Prop :=
  result (findShardIDs s (ID_String (BucketID source)) DefaultRetentionPolicyName
                       false (clamp_start (Start range)) (clamp_end (End range)))
    = Done (ids, None) /\
  len ids <> 0%nat.

(** The wire predicate translates to [expr] without error. *)
Definition translates_to (p : option Predicate) (expr : option Expr) : Prop :=
  exists root, GetRoot p = Some root /\
               NodeToExpr root measurementRemap = (expr, None).

(** The wire predicate references a field value. *)
Definition references_field_value (p : option Predicate) : Prop :=
  exists expr, translates_to p expr /\ HasFieldValueKey expr = true.



(** The requested tag key after the reserved-name table. *)
Definition remapped (tagKey : string) : string :=
  default tagKey (measurementRemap !! tagKey).

(** The clause [TagValues] adds for the requested key. *)
Definition tagKeyExpr (tagKey : string) : Expr :=
  BinaryExpr EQ (VarRef "_tagKey") (StringLiteral tagKey).


(** The error, if any, with which an entry point turns a request down
    before it looks for shards: the checks of the read source, in the order
    the entry points make them. *)
Definition validation_error (s : Store) (src : option Any) : option error :=
  match src with
  | None => Some (errors_New "missing read source")
  | Some any =>
      match getReadSource any with
      | (_, Some err) => Some err
      | (None, None) => None
      | (Some source, None) =>
          match Database_ (store_MetaClient s) (ID_String (BucketID source)) with
          | None => Some (errors_New "no database")
          | Some di =>
              match RetentionPolicy di DefaultRetentionPolicyName with
              | None => Some (errors_New "invalid retention policy")
              | Some _ => None
              end
          end
      end
  end.

(** The shard lookup an entry point makes for a decoded source and a
    requested range. *)
Definition request_lookup (source : ReadSource) (range : TimestampRange)
    : string * string * Z * Z :=
  (ID_String (BucketID source), DefaultRetentionPolicyName,
   clamp_start (Start range), clamp_end (End range)).

End Vocabulary.

(** A cursor of one of the five array types that returns an empty array only
    once it is exhausted. *)
Definition cursor_ok (c : Cursor) : Prop :=
  cur_kind c <> UnknownCursor /\ Forall (fun b => b <> []) (cur_batches c).

(** The points a cursor yields. *)
Definition cursor_points (c : Cursor) : list Z := concat (cur_batches c).

(** The data cursor of a series yields at least one point in the range. *)
Definition has_data (row : SeriesRow) (start end_ : Z) : Prop :=
  exists c, row_cursor row start end_ = Some c /\ cursor_points c <> [].

(** ** A reference instantiation

    One concrete choice for the parameters and for the two collaborators,
    on which the examples below run. *)
Module Demo.

Definition hex_digit (n : N) : string :=
  match n with
  | 0%N => "0" | 1%N => "1" | 2%N => "2" | 3%N => "3" | 4%N => "4"
  | 5%N => "5" | 6%N => "6" | 7%N => "7" | 8%N => "8" | 9%N => "9"
  | 10%N => "a" | 11%N => "b" | 12%N => "c" | 13%N => "d" | 14%N => "e"
  | _ => "f"
  end.

Fixpoint hex_fixed (digits : nat) (n : N) (acc : string) : string :=
  match digits with
  | O => acc
  | S d => hex_fixed d (N.div n 16) (hex_digit (N.modulo n 16) +:+ acc)
  end.

Definition remap : gmap string string :=
  <["_measurement" := "_name"]> ∅.

Fixpoint node_to_expr (n : Node) : Expr :=
  match n with
  | NodeLogical op l r => BinaryExpr op (node_to_expr l) (node_to_expr r)
  | NodeComparison op l r => BinaryExpr op (node_to_expr l) (node_to_expr r)
  | NodeParen n => ParenExpr (node_to_expr n)
  | NodeTagRef name => VarRef (default name (remap !! name))
  | NodeFieldRef _ => VarRef "$"
  | NodeString s => StringLiteral s
  | NodeBool b => BooleanLiteral b
  | NodeInt z => IntegerLiteral z
  | NodeRegex s => RegexLiteral s
  end.

Fixpoint has_ref (name : string) (e : Expr) : bool :=
  match e with
  | BinaryExpr _ l r => has_ref name l || has_ref name r
  | ParenExpr e => has_ref name e
  | VarRef v => String.eqb v name
  | _ => false
  end.

Fixpoint has_tag_ref (e : Expr) : bool :=
  match e with
  | BinaryExpr _ l r => has_tag_ref l || has_tag_ref r
  | ParenExpr e => has_tag_ref e
  | VarRef v => negb (String.eqb v "_field" || String.eqb v "_name" || String.eqb v "$")
  | _ => false
  end.

Fixpoint remove_field_refs (e : Expr) : Expr :=
  match e with
  | BinaryExpr op (VarRef v) r =>
      if String.eqb v "_field" || String.eqb v "$" then BooleanLiteral true
      else BinaryExpr op (VarRef v) (remove_field_refs r)
  | BinaryExpr op l r => BinaryExpr op (remove_field_refs l) (remove_field_refs r)
  | ParenExpr e => ParenExpr (remove_field_refs e)
  | _ => e
  end.

Fixpoint reduce (e : Expr) : Expr :=
  match e with
  | BinaryExpr AND l r =>
      match reduce l, reduce r with
      | BooleanLiteral true, r' => r'
      | l', BooleanLiteral true => l'
      | l', r' => BinaryExpr AND l' r'
      end
  | BinaryExpr op l r => BinaryExpr op (reduce l) (reduce r)
  | ParenExpr e =>
      match reduce e with
      | BooleanLiteral b => BooleanLiteral b
      | e' => ParenExpr e'
      end
  | _ => e
  end.

Definition series (tags : Tags) (kind : CursorKind) (batches : list (list Z))
    : SeriesRow :=
  {| row_tags := tags;
     row_cursor := fun _ _ => Some {| cur_kind := kind; cur_batches := batches |} |}.

(** Three series: one with points, one whose cursor is empty, one without
    a cursor. *)
Definition rows : list SeriesRow :=
  [ series [("_field", "idle"); ("_measurement", "cpu"); ("host", "b")]
           FloatArrayCursor [[1; 2]];
    series [("_field", "load"); ("_measurement", "cpu"); ("host", "a")]
           IntegerArrayCursor [];
    {| row_tags := [("_field", "used"); ("_measurement", "mem"); ("host", "c")];
       row_cursor := fun _ _ => None |};
    series [("_field", "free"); ("_measurement", "mem"); ("host", "a")]
           StringArrayCursor [[5]] ].

Definition by_start (a b : ShardGroupInfo) : Prop :=
  sg_StartTime a <= sg_StartTime b.

#[export] Instance by_start_dec : RelDecision by_start.
Proof. intros a b. unfold by_start. apply _. Defined.

Definition externals : Externals := {|
  MinNanoTime := -9223372036854775806;
  MaxNanoTime := 9223372036854775806;
  ID_String := fun n => hex_fixed 16 n "";
  DefaultRetentionPolicyName := "autogen";
  sort_ShardGroupInfos := merge_sort by_start;
  sort_Reverse_ShardGroupInfos := merge_sort (flip by_start);
  UnmarshalAny := fun any =>
    if String.eqb (TypeUrl any) "ReadSource"
    then ({| OrganizationID := 1; BucketID := 2 |}, None)
    else ({| OrganizationID := 0; BucketID := 0 |}, Some "mismatched message type");
  measurementRemap := remap;
  measurementKey := "_measurement";
  fieldKey := "_field";
  NodeToExpr := fun n _ => (Some (node_to_expr n), None);
  HasFieldValueKey := fun e =>
    match e with Some e => has_ref "$" e | None => false end;
  Reduce := fmap reduce;
  RewriteExprRemoveFieldKeyAndValue := fmap remove_field_refs;
  HasFieldKeyOrValue := fun e => (has_ref "_field" e, has_ref "$" e);
  hasTagKey := has_tag_ref;
  newIndexSeriesCursor := fun _ shards =>
    match shards with
    | [] => (None, None)
    | _ => (Some {| sc_rows := rows |}, None)
    end;
  newIndexSeriesCursorInfluxQLPred := fun _ shards =>
    match shards with
    | [] => (None, None)
    | _ => (Some {| sc_rows := rows |}, None)
    end;
  NewGroupResultSet := fun req newCursor =>
    '(cur, _) ← newCursor;
    match cur with
    | Some cur => mret (Some {| grs_req := req; grs_groups := [cur] |})
    | None => mret None
    end
|}.

Definition database : DatabaseInfo :=
  {| di_Name := "0000000000000002";
     di_RetentionPolicies := [ {| rpi_Name := "autogen" |} ] |}.

(** One shard group, [0, 86400), holding shard 1. *)
Definition metaClient : MetaClient :=
  {| Database_ := fun name =>
       if String.eqb name "0000000000000002" then Some database else None;
     ShardGroupsByTimeRange_ := fun _ _ min max =>
       if decide (min < 86400 ∧ 0 <= max)
       then ([ {| sg_ID := 1; sg_StartTime := 0; sg_EndTime := 86400;
                  sg_Shards := [ {| shard_ID := 1 |} ] |} ], None)
       else ([], None) |}.

Definition fieldKeys : list FloatPoint :=
  [ {| Aux := [AuxString "load"] |}; {| Aux := [AuxString "idle"] |};
    {| Aux := [] |}; {| Aux := [AuxString "load"] |} ].

Definition tsdbStore : TSDBStore :=
  {| MeasurementNames_ := fun _ _ _ => (["mem"; "cpu"; "mem"], None);
     ShardGroup_ := fun ids =>
       {| sgrp_ids := slice_elems ids;
          CreateIterator := fun _ _ => (Some (FloatIterator fieldKeys), None) |};
     Shards_ := fun ids => (fun id => {| sh_id := id |}) <$> slice_elems ids;
     TagKeys_ := fun _ _ _ =>
       ([ {| tkeys_Measurement := "cpu"; Keys := ["host"; "region"] |};
          {| tkeys_Measurement := "mem"; Keys := ["host"] |} ], None);
     TagValues_ := fun _ _ _ =>
       ([ {| tvals_Measurement := "cpu";
             Values := [ {| kv_Key := "host"; kv_Value := "b" |};
                         {| kv_Key := "host"; kv_Value := "a" |} ] |};
          {| tvals_Measurement := "mem";
             Values := [ {| kv_Key := "host"; kv_Value := "a" |} ] |} ], None) |}.

Definition store : Store := NewStore tsdbStore metaClient.

Definition source : Any := {| TypeUrl := "ReadSource"; Value := "" |}.

Definition range (a b : Z) : TimestampRange := {| Start := a; End := b |}.

(** [_value > 10] and [_field = 'load'] on the wire. *)
Definition value_pred : Predicate :=
  {| Root := Some (NodeComparison GT (NodeFieldRef "_value") (NodeInt 10)) |}.
Definition host_pred : Predicate :=
  {| Root := Some (NodeComparison EQ (NodeTagRef "host") (NodeString "a")) |}.

Definition readSource : ReadSource := {| OrganizationID := 1; BucketID := 2 |}.

Definition tagKeysRequest (range : TimestampRange) (pred : option Predicate)
    : TagKeysRequest :=
  {| tk_TagsSource := Some source; tk_Range := range; tk_Predicate := pred |}.

Definition tagValuesRequest (tagKey : string) (pred : option Predicate)
    : TagValuesRequest :=
  {| tv_TagsSource := Some source; tv_Range := range 0 10;
     tv_Predicate := pred; tv_TagKey := tagKey |}.

Definition readFilterRequest (range : TimestampRange) : ReadFilterRequest :=
  {| rf_ReadSource := Some source; rf_Range := range; rf_Predicate := None |}.

Definition attrs (pred : option Expr) : metaqueryAttributes :=
  {| orgID := 1; db := "0000000000000002"; rp := "autogen";
     start := -9223372036854775806; end_ := 10; pred := pred |}.

(** [host = 'a'] and [$ > 10] in the engine's form. *)
Definition host_expr : Expr := BinaryExpr EQ (VarRef "host") (StringLiteral "a").
Definition value_expr : Expr := BinaryExpr GT (VarRef "$") (IntegerLiteral 10).

(** The reference parameters with another answer of the index series cursor
    constructor for native predicates. *)
Definition externals_with_cursor (ic : goret SeriesCursor) : Externals := {|
  MinNanoTime := @MinNanoTime externals;
  MaxNanoTime := @MaxNanoTime externals;
  ID_String := @ID_String externals;
  DefaultRetentionPolicyName := @DefaultRetentionPolicyName externals;
  sort_ShardGroupInfos := @sort_ShardGroupInfos externals;
  sort_Reverse_ShardGroupInfos := @sort_Reverse_ShardGroupInfos externals;
  UnmarshalAny := @UnmarshalAny externals;
  measurementRemap := @measurementRemap externals;
  measurementKey := @measurementKey externals;
  fieldKey := @fieldKey externals;
  NodeToExpr := @NodeToExpr externals;
  HasFieldValueKey := @HasFieldValueKey externals;
  Reduce := @Reduce externals;
  RewriteExprRemoveFieldKeyAndValue := @RewriteExprRemoveFieldKeyAndValue externals;
  HasFieldKeyOrValue := @HasFieldKeyOrValue externals;
  hasTagKey := @hasTagKey externals;
  newIndexSeriesCursor := @newIndexSeriesCursor externals;
  newIndexSeriesCursorInfluxQLPred := fun _ _ => ic;
  NewGroupResultSet := @NewGroupResultSet externals
|}.

(** Series of which the second has a cursor of a type that [cursorHasData]
    does not know. *)
Definition rows_unknown : list SeriesRow :=
  [ series [("host", "b")] FloatArrayCursor [[1; 2]];
    series [("host", "a")] UnknownCursor [[3]];
    series [("host", "c")] StringArrayCursor [[5]] ].

(** The reference store with another answer of the shard group's iterator
    construction. *)
Definition store_with_iterator (it : goret Iterator) : Store :=
  NewStore
    {| MeasurementNames_ := MeasurementNames_ tsdbStore;
       ShardGroup_ := fun ids =>
         {| sgrp_ids := slice_elems ids; CreateIterator := fun _ _ => it |};
       Shards_ := Shards_ tsdbStore;
       TagKeys_ := TagKeys_ tsdbStore;
       TagValues_ := TagValues_ tsdbStore |}
    metaClient.

(** The reference store with a metadata service that answers every shard
    lookup with the given groups. *)
Definition store_with_groups (groups : list ShardGroupInfo) : Store :=
  NewStore tsdbStore
    {| Database_ := Database_ metaClient;
       ShardGroupsByTimeRange_ := fun _ _ _ _ => (groups, None) |}.

(** The reference store with an index that fails. *)
Definition store_failing_index (err : error) : Store :=
  NewStore
    {| MeasurementNames_ := fun _ _ _ => ([], Some err);
       ShardGroup_ := ShardGroup_ tsdbStore;
       Shards_ := Shards_ tsdbStore;
       TagKeys_ := fun _ _ _ => ([], Some err);
       TagValues_ := fun _ _ _ => ([], Some err) |}
    metaClient.

Definition group (id : N) (start_ end__ : Z) (shards : list N) : ShardGroupInfo :=
  {| sg_ID := id; sg_StartTime := start_; sg_EndTime := end__;
     sg_Shards := (fun i => {| shard_ID := i |}) <$> shards |}.

Definition readGroupRequest (range : TimestampRange) : ReadGroupRequest :=
  {| rg_ReadSource := Some source; rg_Range := range; rg_Predicate := None |}.

End Demo.

(** * Properties *)

Section Properties.
Context {ext : Externals}.

Lemma validateArgs_cases s o b st en :
  (exists e, validateArgs s o b st en =
               ([MetaDatabase (ID_String b)], Done ("", "", 0, 0, Some e))) \/
  (validateArgs s o b st en =
     ([MetaDatabase (ID_String b)],
      Done (ID_String b, DefaultRetentionPolicyName,
            clamp_start st, clamp_end en, None))).
Proof.
  unfold validateArgs, clamp_start, clamp_end. simpl.
  destruct (Database_ _ _) as [di|]; simpl; [|eauto].
  destruct (RetentionPolicy di _); simpl; eauto.
Qed.

Lemma findShardIDs_cases s d r desc a b :
  (~ finds_no_group s (d, r, a, b) /\
   exists e, findShardIDs s d r desc a b =
               ([MetaShardGroupsByTimeRange d r a b], Done (nil_slice, Some e))) \/
  (finds_no_group s (d, r, a, b) /\
   findShardIDs s d r desc a b =
     ([MetaShardGroupsByTimeRange d r a b], Done (nil_slice, None))) \/
  (~ finds_no_group s (d, r, a, b) /\
   exists ids, findShardIDs s d r desc a b =
     ([MetaShardGroupsByTimeRange d r a b], Done (mk_slice ids, None))).
Proof.
  unfold findShardIDs, finds_no_group. simpl.
  destruct (ShardGroupsByTimeRange_ _ d r a b) as [groups [err|]]; simpl.
  - left. split; [done|eauto].
  - case_decide as Hlen; simpl.
    + right; left. destruct groups; [done|discriminate].
    + right; right. split; [|eauto]. intros [= ->]. done.
Qed.

Lemma getReadSource_cases any :
  (exists src, getReadSource any = (Some src, None)) \/
  (exists e, getReadSource any = (None, Some e)).
Proof.
  unfold getReadSource, GetReadSource.
  destruct (UnmarshalAny any) as [src [e|]]; eauto.
Qed.

Lemma bind_done {A B} (t : list Event) (a : A) (f : A -> M B) :
  (t, Done a) ≫= f = (t ++ trace (f a), result (f a)).
Proof. unfold mbind, M_bind, trace, result. by destruct (f a). Qed.

Lemma bind_panicked {A B} (t : list Event) msg (f : A -> M B) :
  (t, Panicked msg) ≫= f = (t, Panicked msg).
Proof. reflexivity. Qed.

Lemma bind_ret {A B} (a : A) (f : A -> M B) : mret a ≫= f = f a.
Proof. unfold mret, M_ret. rewrite bind_done. by destruct (f a). Qed.

Lemma emit_run e : emit e = ([e], Done ()).
Proof. reflexivity. Qed.

Lemma call_Shards_run s ids :
  call_Shards s ids = ([StoreShards ids], Done (Shards_ (store_TSDBStore s) ids)).
Proof. reflexivity. Qed.

Lemma call_ShardGroup_run s ids :
  call_ShardGroup s ids =
    ([StoreShardGroup ids], Done (ShardGroup_ (store_TSDBStore s) ids)).
Proof. reflexivity. Qed.

Lemma call_newIndexSeriesCursor_run pred shards :
  call_newIndexSeriesCursor pred shards =
    ([IndexSeriesCursor pred shards], Done (newIndexSeriesCursor pred shards)).
Proof. reflexivity. Qed.

Lemma call_newIndexSeriesCursorInfluxQLPred_run pred shards :
  call_newIndexSeriesCursorInfluxQLPred pred shards =
    ([IndexSeriesCursorInfluxQLPred pred shards],
     Done (newIndexSeriesCursorInfluxQLPred pred shards)).
Proof. reflexivity. Qed.

Lemma call_TagKeys_run s auth ids cond :
  call_TagKeys s auth ids cond =
    ([StoreTagKeys auth ids cond], Done (TagKeys_ (store_TSDBStore s) auth ids cond)).
Proof. reflexivity. Qed.

Lemma call_TagValues_run s auth ids cond :
  call_TagValues s auth ids cond =
    ([StoreTagValues auth ids cond],
     Done (TagValues_ (store_TSDBStore s) auth ids cond)).
Proof. reflexivity. Qed.

Lemma call_MeasurementNames_run s auth database cond :
  call_MeasurementNames s auth database cond =
    ([StoreMeasurementNames auth database cond],
     Done (MeasurementNames_ (store_TSDBStore s) auth database cond)).
Proof. reflexivity. Qed.

Lemma trace_ret {A} (a : A) : trace (mret a : M A) = [].
Proof. reflexivity. Qed.

Lemma result_ret {A} (a : A) : result (mret a : M A) = Done a.
Proof. reflexivity. Qed.

#[local] Arguments M_bind : simpl never.
#[local] Arguments mbind : simpl never.

Ltac norm :=
  repeat (rewrite ?emit_run, ?call_Shards_run, ?call_ShardGroup_run,
            ?call_newIndexSeriesCursor_run, ?call_newIndexSeriesCursorInfluxQLPred_run,
            ?call_TagKeys_run, ?call_TagValues_run, ?call_MeasurementNames_run,
            ?bind_ret, ?bind_done, ?bind_panicked, ?trace_ret, ?result_ret in *;
          simpl in * ).

#[local] Arguments validateArgs : simpl never.
#[local] Arguments findShardIDs : simpl never.
#[local] Arguments getReadSource : simpl never.

Ltac run_source :=
  match goal with
  | |- context [getReadSource ?any] =>
      let H := fresh "Hsrc" in
      destruct (getReadSource_cases any) as [[? H]|[? H]];
      rewrite !H in *; clear H; norm
  end.
Ltac run_validate :=
  match goal with
  | |- context [validateArgs ?s ?o ?b ?st ?en] =>
      let H := fresh "Hval" in
      destruct (validateArgs_cases s o b st en) as [[? H]|H];
      rewrite !H in *; clear H; norm
  end.
Ltac run_shards :=
  match goal with
  | |- context [findShardIDs ?s ?d ?r ?desc ?a ?b] =>
      let H := fresh "Hsh" in
      let Hg := fresh "Hgroups" in
      destruct (findShardIDs_cases s d r desc a b)
        as [[Hg [? H]]|[[Hg H]|[Hg [? H]]]];
      rewrite !H in *; clear H; norm
  end.

(** C10: [ReadFilter] stores the clamped range in the request only when it
    returns a result set, that is after the shard lookup found shards and
    the index series cursor constructor returned a cursor and no error; on
    every other return the request is the one it was given, and the call
    never panics. *)
Theorem ReadFilter_range_frame s req :
  match result (ReadFilter s req) with
  | Done (req', (Some rs, None)) =>
      rf_Range req' = {| Start := clamp_start (Start (rf_Range req));
                         End := clamp_end (End (rf_Range req)) |} /\
      rs_start rs = Start (rf_Range req') /\ rs_end rs = End (rf_Range req') /\
      exists ids : slice N,
        let shards := Shards_ (store_TSDBStore s) ids in
        len ids <> 0%nat /\
        newIndexSeriesCursor (rf_Predicate req) shards = (Some (rs_cur rs), None) /\
        last (trace (ReadFilter s req)) =
          Some (IndexSeriesCursor (rf_Predicate req) shards)
  | Done (req', _) => req' = req
  | Panicked _ => False
  end.
Proof.
  unfold ReadFilter.
  destruct (rf_ReadSource req) as [any|]; [|reflexivity].
  run_source; [|reflexivity].
  run_validate; [reflexivity|].
  run_shards; [reflexivity|reflexivity|].
  case_decide; [reflexivity|]. norm.
  destruct (newIndexSeriesCursor _ _) as [ic [e|]] eqn:Hic; [reflexivity|].
  destruct ic as [cur|]; [|reflexivity]. simpl.
  repeat split; eauto.
Qed.


Ltac absurd_lookup := norm; by simplify_eq.

Lemma ReadGroup_zero s req :
  zero_shards s (ReadGroup s req) ->
  result (ReadGroup s req) = Done (req, (None, None)) /\ meta_only (ReadGroup s req).
Proof.
  unfold ReadGroup, zero_shards, meta_only. intros (q & Hq & Hno).
  destruct (rg_ReadSource req) as [any|]; [|absurd_lookup].
  run_source; [|absurd_lookup].
  run_validate; [absurd_lookup|].
  run_shards; [absurd_lookup| |absurd_lookup].
  split; [done|]. by repeat constructor.
Qed.

Lemma ReadFilter_zero s req :
  zero_shards s (ReadFilter s req) ->
  result (ReadFilter s req) = Done (req, (None, None)) /\ meta_only (ReadFilter s req).
Proof.
  unfold ReadFilter, zero_shards, meta_only. intros (q & Hq & Hno).
  destruct (rf_ReadSource req) as [any|]; [|absurd_lookup].
  run_source; [|absurd_lookup].
  run_validate; [absurd_lookup|].
  run_shards; [absurd_lookup| |absurd_lookup].
  split; [done|]. by repeat constructor.
Qed.

Lemma TagKeys_zero s req :
  zero_shards s (TagKeys s req) ->
  result (TagKeys s req) = Done (Some EmptyStringIterator, None) /\
  meta_only (TagKeys s req).
Proof.
  unfold TagKeys, zero_shards, meta_only. intros (q & Hq & Hno).
  destruct (tk_TagsSource req) as [any|]; [|absurd_lookup].
  run_source; [|absurd_lookup].
  run_validate; [absurd_lookup|].
  run_shards; [absurd_lookup| |absurd_lookup].
  split; [done|]. by repeat constructor.
Qed.

Lemma tagValuesSlow_zero s mqAttrs tagKey :
  zero_shards s (tagValuesSlow s mqAttrs tagKey) ->
  result (tagValuesSlow s mqAttrs tagKey) = Done (Some EmptyStringIterator, None) /\
  meta_only (tagValuesSlow s mqAttrs tagKey).
Proof.
  unfold tagValuesSlow, zero_shards, meta_only. intros (q & Hq & Hno).
  run_shards; [absurd_lookup| |absurd_lookup].
  split; [done|]. by repeat constructor.
Qed.

Lemma measurementFields_zero s mqAttrs :
  zero_shards s (measurementFields s mqAttrs) ->
  result (measurementFields s mqAttrs) = Done (Some EmptyStringIterator, None) /\
  meta_only (measurementFields s mqAttrs).
Proof.
  unfold measurementFields. intros Hz.
  destruct (match pred mqAttrs with Some _ => _ | None => _ end).
  { by apply tagValuesSlow_zero. }
  revert Hz. unfold zero_shards, meta_only. intros (q & Hq & Hno).
  run_shards; [absurd_lookup| |absurd_lookup].
  split; [done|]. by repeat constructor.
Qed.

Lemma MeasurementNames_zero s mqAttrs :
  zero_shards s (MeasurementNames s mqAttrs) ->
  result (MeasurementNames s mqAttrs) = Done (Some EmptyStringIterator, None) /\
  meta_only (MeasurementNames s mqAttrs).
Proof.
  unfold MeasurementNames. intros Hz.
  destruct (match pred mqAttrs with Some _ => _ | None => _ end).
  { by apply tagValuesSlow_zero. }
  revert Hz. unfold zero_shards. intros (q & Hq & Hno). norm.
  by destruct (MeasurementNames_ _ _ _ _) as [? [?|]].
Qed.

Lemma TagValues_zero s req :
  zero_shards s (TagValues s req) ->
  result (TagValues s req) = Done (Some EmptyStringIterator, None) /\
  meta_only (TagValues s req).
Proof.
  unfold TagValues, zero_shards, meta_only. intros (q & Hq & Hno).
  destruct (tv_TagsSource req) as [any|]; [|absurd_lookup].
  run_source; [|absurd_lookup].
  run_validate; [absurd_lookup|].
  destruct (metaPredicate _) as [influxqlPred|e]; [|absurd_lookup].
  norm.
  case_decide.
  { destruct (MeasurementNames_zero s _ (ex_intro _ q (conj Hq Hno))) as [Hr Hm].
    split; [done|]. by constructor. }
  case_decide.
  { destruct (measurementFields_zero s _ (ex_intro _ q (conj Hq Hno))) as [Hr Hm].
    split; [done|]. by constructor. }
  run_shards; [absurd_lookup| |absurd_lookup].
  split; [done|]. by repeat constructor.
Qed.

(** ** Shard location and the zero-shard short circuit *)

Lemma findShardIDs_zero s d r desc a b :
  finds_no_group s (d, r, a, b) ->
  findShardIDs s d r desc a b =
    ([MetaShardGroupsByTimeRange d r a b], Done (nil_slice, None)).
Proof.
  intros Hno.
  destruct (findShardIDs_cases s d r desc a b) as [[Hg _]|[[_ H]|[Hg _]]]; done.
Qed.

(** C1 (amended): when the shard lookup finds no group, [findShardIDs]
    returns the nil shard-ID list, of length zero, and no error; [TagKeys],
    [TagValues], [tagValuesSlow] and [measurementFields] then return the
    explicit empty string iterator, whereas [ReadFilter] and [ReadGroup]
    return a nil result set with a nil error and leave the request as it
    was; in every case only the metadata service has been contacted. *)
Theorem zero_shards_short_circuit s :
  (forall d r desc a b,
     finds_no_group s (d, r, a, b) ->
     findShardIDs s d r desc a b =
       ([MetaShardGroupsByTimeRange d r a b], Done (nil_slice, None)) /\
     len (@nil_slice N) = 0%nat) /\
  (forall req,
     zero_shards s (ReadFilter s req) ->
     result (ReadFilter s req) = Done (req, (None, None)) /\
     meta_only (ReadFilter s req)) /\
  (forall req,
     zero_shards s (ReadGroup s req) ->
     result (ReadGroup s req) = Done (req, (None, None)) /\
     meta_only (ReadGroup s req)) /\
  (forall req,
     zero_shards s (TagKeys s req) ->
     result (TagKeys s req) = Done (Some EmptyStringIterator, None) /\
     meta_only (TagKeys s req)) /\
  (forall req,
     zero_shards s (TagValues s req) ->
     result (TagValues s req) = Done (Some EmptyStringIterator, None) /\
     meta_only (TagValues s req)) /\
  (forall mqAttrs tagKey,
     zero_shards s (tagValuesSlow s mqAttrs tagKey) ->
     result (tagValuesSlow s mqAttrs tagKey) = Done (Some EmptyStringIterator, None) /\
     meta_only (tagValuesSlow s mqAttrs tagKey)) /\
  (forall mqAttrs,
     zero_shards s (measurementFields s mqAttrs) ->
     result (measurementFields s mqAttrs) = Done (Some EmptyStringIterator, None) /\
     meta_only (measurementFields s mqAttrs)).
Proof.
  split; [|split; [|split; [|split; [|split; [|split]]]]].
  - intros d r desc a b Hno. split; [by apply findShardIDs_zero|done].
  - apply ReadFilter_zero.
  - apply ReadGroup_zero.
  - apply TagKeys_zero.
  - apply TagValues_zero.
  - apply tagValuesSlow_zero.
  - apply measurementFields_zero.
Qed.

(** ** Identity and range resolution *)

(** C3: when the database and its default retention policy exist,
    [validateArgs] returns the start and end clamped each on its own: a
    non-positive start becomes [MinNanoTime], a non-positive end becomes
    [MaxNanoTime], a positive bound is returned as it is, and the two are
    never swapped, also when the start lies after the end. *)
Theorem validateArgs_clamps s orgID bucketID start end_ di rpi :
  Database_ (store_MetaClient s) (ID_String bucketID) = Some di ->
  RetentionPolicy di DefaultRetentionPolicyName = Some rpi ->
  exists start' end',
    result (validateArgs s orgID bucketID start end_) =
      Done (ID_String bucketID, DefaultRetentionPolicyName, start', end', None) /\
    (start <= 0 -> start' = MinNanoTime) /\
    (end_ <= 0 -> end' = MaxNanoTime) /\
    (0 < start -> start' = start) /\
    (0 < end_ -> end' = end_) /\
    (0 < end_ < start -> end' < start').
Proof.
  intros Hdi Hrpi. unfold validateArgs. norm. rewrite Hdi, Hrpi. norm.
  eexists _, _. split; [reflexivity|].
  repeat case_decide; repeat split; intros; lia.
Qed.

(** C9: [validateArgs] does not read its organization ID: two calls that
    differ only in the organization return the same database, retention
    policy, clamped start and end and error, after the same metadata
    lookup, which is keyed by the bucket ID alone. *)
Theorem validateArgs_ignores_org s org1 org2 bucketID start end_ :
  validateArgs s org1 bucketID start end_ = validateArgs s org2 bucketID start end_ /\
  trace (validateArgs s org1 bucketID start end_) = [MetaDatabase (ID_String bucketID)].
Proof.
  split; [reflexivity|].
  by destruct (validateArgs_cases s org1 bucketID start end_) as [[e ->]| ->].
Qed.

Lemma validateArgs_ok s o b st en di rpi :
  Database_ (store_MetaClient s) (ID_String b) = Some di ->
  RetentionPolicy di DefaultRetentionPolicyName = Some rpi ->
  validateArgs s o b st en =
    ([MetaDatabase (ID_String b)],
     Done (ID_String b, DefaultRetentionPolicyName,
           clamp_start st, clamp_end en, None)).
Proof.
  intros Hdi Hrpi. unfold validateArgs. norm. by rewrite Hdi, Hrpi.
Qed.

Lemma findShardIDs_run s d r desc a b :
  exists ids err,
    findShardIDs s d r desc a b =
      ([MetaShardGroupsByTimeRange d r a b], Done (ids, err)).
Proof.
  destruct (findShardIDs_cases s d r desc a b)
    as [[_ [e H]]|[[_ H]|[_ [ids H]]]]; eauto.
Qed.

Lemma findShardIDs_found s source range ids :
  shards_found s source range ids ->
  findShardIDs s (ID_String (BucketID source)) DefaultRetentionPolicyName false
               (clamp_start (Start range)) (clamp_end (End range)) =
    ([MetaShardGroupsByTimeRange (ID_String (BucketID source))
        DefaultRetentionPolicyName
        (clamp_start (Start range)) (clamp_end (End range))],
     Done (ids, None)).
Proof.
  intros [Hres _]. revert Hres.
  destruct (findShardIDs_run s (ID_String (BucketID source))
              DefaultRetentionPolicyName false (clamp_start (Start range))
              (clamp_end (End range))) as (ids' & err & ->).
  simpl. by intros [= -> ->].
Qed.

(** ** Predicate translation *)

Lemma indexPredicate_field_value p :
  references_field_value p ->
  indexPredicate p = inr (errors_New "field values unsupported").
Proof.
  intros (expr & (root & Hroot & Hexpr) & Hval).
  unfold indexPredicate. by rewrite Hroot, Hexpr, Hval.
Qed.

Lemma metaPredicate_field_value p :
  references_field_value p ->
  metaPredicate p = inr (errors_New "field values unsupported").
Proof.
  intros (expr & (root & Hroot & Hexpr) & Hval).
  unfold metaPredicate. by rewrite Hroot, Hexpr, Hval.
Qed.



Lemma metaPredicate_not_true p :
  metaPredicate p <> inl (Some (BooleanLiteral true)).
Proof.
  unfold metaPredicate. destruct (GetRoot p) as [root|]; [|done].
  destruct (NodeToExpr root measurementRemap) as [expr [e|]]; [done|].
  destruct (HasFieldValueKey expr); [done|].
  destruct (Reduce _) as [[| | | |[] | |]|]; done.
Qed.

Ltac use_source Hvalid :=
  let any := fresh "any" in
  let di := fresh "di" in
  let rpi := fresh "rpi" in
  let Hany := fresh "Hany" in
  let Hsrc := fresh "Hsrc" in
  let Hdi := fresh "Hdi" in
  let Hrpi := fresh "Hrpi" in
  destruct Hvalid as (any & di & rpi & Hany & Hsrc & Hdi & Hrpi);
  rewrite ?Hany, ?Hsrc; norm;
  rewrite ?(validateArgs_ok _ _ _ _ _ _ _ Hdi Hrpi); norm.

(** C2 (amended): a [TagValues] request, and a [TagKeys] request whose
    shard lookup yields at least one shard, with a valid read source and a
    wire predicate that translates without error and references a field
    value, fails with the error "field values unsupported" after contacting
    the metadata service only; [TagKeys] consults the predicate only after
    its zero-shard return. *)
Theorem field_value_predicate_rejected s :
  (forall req source,
     references_field_value (tv_Predicate req) ->
     source_valid s (tv_TagsSource req) source ->
     TagValues s req =
       ([MetaDatabase (ID_String (BucketID source))],
        Done (None, Some (errors_New "field values unsupported")))) /\
  (forall req source ids,
     references_field_value (tk_Predicate req) ->
     source_valid s (tk_TagsSource req) source ->
     shards_found s source (tk_Range req) ids ->
     result (TagKeys s req) =
       Done (None, Some (errors_New "field values unsupported")) /\
     meta_only (TagKeys s req)).
Proof.
  split.
  - intros req source Hpred Hvalid. unfold TagValues.
    use_source Hvalid.
    by rewrite (metaPredicate_field_value _ Hpred).
  - intros req source ids Hpred Hvalid Hfound. unfold TagKeys, meta_only.
    use_source Hvalid.
    rewrite (findShardIDs_found _ _ _ _ Hfound). norm.
    destruct Hfound as [_ Hlen]. case_decide; [done|].
    rewrite (indexPredicate_field_value _ Hpred). norm.
    split; [done|]. by repeat constructor.
Qed.

(** ** Traces of loops and of the scan and listing paths *)

Lemma trace_bind {A B} (m : M A) (f : A -> M B) :
  trace (m ≫= f) =
    trace m ++ match result m with
               | Done a => trace (f a)
               | Panicked _ => []
               end.
Proof.
  destruct m as [t [a|msg]]; norm; [done|]. by rewrite app_nil_r.
Qed.

Lemma result_bind {A B} (m : M A) (f : A -> M B) :
  result (m ≫= f) =
    match result m with
    | Done a => result (f a)
    | Panicked msg => Panicked msg
    end.
Proof. destruct m as [t [a|msg]]; by norm. Qed.

Lemma for_range_trace_Forall {A S} (P : Event -> Prop) (l : list A)
    (body : S -> A -> M S) (s0 : S) :
  (forall s a, Forall P (trace (body s a))) ->
  Forall P (trace (for_range l body s0)).
Proof.
  intros Hbody. revert s0.
  induction l as [|a l IH]; intros s0; simpl; [constructor|].
  rewrite trace_bind. apply Forall_app. split; [apply Hbody|].
  destruct (result (body s0 a)); [apply IH|constructor].
Qed.

Lemma cursorHasData_known c :
  cur_kind c <> UnknownCursor ->
  cursorHasData c =
    ([CursorNext c], Done (negb (Nat.eqb (length (hd [] (cur_batches c))) 0))).
Proof. intros Hkind. unfold cursorHasData, call_Next. by destruct (cur_kind c). Qed.

Lemma cursorHasData_unknown c :
  cur_kind c = UnknownCursor -> cursorHasData c = ([], Panicked "unreachable").
Proof. intros Hkind. unfold cursorHasData. by rewrite Hkind. Qed.

(** One visit of the scan: the check of the cursor, then its deferred
    close. *)
Lemma cursor_visit_trace {A} c (k : bool -> M A) (P : Event -> Prop) :
  P (CursorNext c) -> P (CursorClose c) ->
  (forall b, trace (k b) = []) ->
  Forall P (trace (defer (cursorHasData c ≫= k) (CursorClose c))).
Proof.
  intros Hnext Hclose Hk. unfold defer. simpl. rewrite trace_bind.
  destruct (cur_kind c) eqn:Hkind;
    [ rewrite (cursorHasData_known c) by congruence ..
    | rewrite (cursorHasData_unknown c Hkind) ];
    simpl; rewrite ?Hk; by repeat constructor.
Qed.

Lemma tagValuesSlow_not_tag_values s mqAttrs tagKey :
  Forall not_tag_values (trace (tagValuesSlow s mqAttrs tagKey)).
Proof.
  unfold tagValuesSlow.
  run_shards; try by repeat constructor.
  case_decide; norm; [by repeat constructor|].
  destruct (newIndexSeriesCursorInfluxQLPred _ _) as [[cur|] [e|]]; norm;
    try by repeat constructor.
  repeat (constructor; [done|]).
  rewrite trace_bind. apply Forall_app. split.
  - apply for_range_trace_Forall. intros m row.
    destruct (row_cursor row _ _) as [c|]; norm; [|constructor].
    apply cursor_visit_trace; [done..|]. by intros [].
  - destruct (result _); norm; constructor.
Qed.

Lemma MeasurementNames_not_tag_values s mqAttrs :
  Forall not_tag_values (trace (MeasurementNames s mqAttrs)).
Proof.
  unfold MeasurementNames.
  destruct (match pred mqAttrs with Some _ => _ | None => _ end).
  { apply tagValuesSlow_not_tag_values. }
  norm. destruct (MeasurementNames_ _ _ _ _) as [values [e|]];
    by repeat constructor.
Qed.

Lemma measurementFields_not_tag_values s mqAttrs :
  Forall not_tag_values (trace (measurementFields s mqAttrs)).
Proof.
  unfold measurementFields.
  destruct (match pred mqAttrs with Some _ => _ | None => _ end).
  { apply tagValuesSlow_not_tag_values. }
  run_shards; try by repeat constructor.
  case_decide; norm; [by repeat constructor|].
  destruct (CreateIterator _ _ _) as [iter [e|]]; norm; [by repeat constructor|].
  destruct iter as [[points|]|]; norm; try by repeat constructor.
  repeat (constructor; [done|]).
  apply Forall_app. split; [|by repeat constructor].
  rewrite trace_bind. apply Forall_app. split.
  - apply for_range_trace_Forall. intros names p.
    destruct (Aux p) as [|[name|] ?]; constructor.
  - destruct (result _); norm; constructor.
Qed.

(** ** The predicate that reaches the index *)

Ltac not_in :=
  rewrite ?elem_of_cons, ?elem_of_nil; intros; intuition discriminate.




(** C5: in [TagValues] the requested key goes through the reserved-name
    table; "_name" hands the request to [MeasurementNames] and "_field" to
    [measurementFields]; for any other key the index is queried with the
    clause "_tagKey" = requested key, alone when the translated predicate is
    absent and otherwise on the left of an AND whose right side is the
    translated predicate in parentheses. *)
Theorem TagValues_dispatch s req source influxqlPred :
  source_valid s (tv_TagsSource req) source ->
  metaPredicate (tv_Predicate req) = inl influxqlPred ->
  let mqAttrs :=
    {| orgID := GetOrgID source;
       db := ID_String (BucketID source);
       rp := DefaultRetentionPolicyName;
       start := clamp_start (Start (tv_Range req));
       end_ := clamp_end (End (tv_Range req));
       pred := influxqlPred |} in
  (remapped (tv_TagKey req) = "_name" ->
   result (TagValues s req) = result (MeasurementNames s mqAttrs) /\
   trace (TagValues s req) =
     MetaDatabase (ID_String (BucketID source)) :: trace (MeasurementNames s mqAttrs)) /\
  (remapped (tv_TagKey req) = "_field" ->
   result (TagValues s req) = result (measurementFields s mqAttrs) /\
   trace (TagValues s req) =
     MetaDatabase (ID_String (BucketID source)) :: trace (measurementFields s mqAttrs)) /\
  (remapped (tv_TagKey req) <> "_name" ->
   remapped (tv_TagKey req) <> "_field" ->
   forall ids expr,
     shards_found s source (tv_Range req) ids ->
     indexPredicate (tv_Predicate req) = inl expr ->
     trace (TagValues s req) =
       [ MetaDatabase (ID_String (BucketID source));
         MetaShardGroupsByTimeRange (ID_String (BucketID source))
           DefaultRetentionPolicyName
           (clamp_start (Start (tv_Range req))) (clamp_end (End (tv_Range req)));
         StoreTagValues OpenAuthorizer ids
           (Some match expr with
                 | Some e =>
                     BinaryExpr AND
                       (BinaryExpr EQ (VarRef "_tagKey") (StringLiteral (tv_TagKey req)))
                       (ParenExpr e)
                 | None =>
                     BinaryExpr EQ (VarRef "_tagKey") (StringLiteral (tv_TagKey req))
                 end) ]).
Proof.
  intros Hvalid Hmeta mqAttrs. subst mqAttrs. unfold remapped, default.
  split; [|split].
  - intros Hkey. unfold TagValues. use_source Hvalid. rewrite Hmeta.
    by rewrite decide_True by done.
  - intros Hkey. unfold TagValues. use_source Hvalid. rewrite Hmeta.
    by rewrite decide_False, decide_True by (rewrite ?Hkey; done).
  - intros Hname Hfield ids expr Hfound Hexpr.
    unfold TagValues. use_source Hvalid. rewrite Hmeta.
    rewrite !decide_False by done.
    rewrite (findShardIDs_found _ _ _ _ Hfound). norm.
    destruct Hfound as [_ Hlen]. rewrite decide_False by done.
    rewrite Hexpr. norm.
    destruct expr; by destruct (TagValues_ _ _ _ _) as [values [err|]].
Qed.

(** ** Sorted, duplicate-free listings *)

Lemma StronglySorted_strict (l : list string) :
  StronglySorted String.le l -> NoDup l -> ascending l.
Proof.
  unfold ascending. induction 1 as [|x l Hl IH Hx]; intros Hnd; [constructor|].
  apply NoDup_cons in Hnd as [Hnotin Hnd].
  constructor; [by apply IH|].
  rewrite Forall_forall in Hx |- *. intros y Hy. split; [by apply Hx|].
  intros Hyx. assert (x = y) as -> by (apply (anti_symm String.le); auto).
  done.
Qed.

Lemma ascending_NoDup (l : list string) : ascending l -> NoDup l.
Proof.
  unfold ascending. induction 1 as [|x l Hl IH Hx]; constructor; [|done].
  intros Hin. rewrite Forall_forall in Hx. destruct (Hx x Hin) as [_ []].
  reflexivity.
Qed.

Lemma elem_of_sort_Strings x l : x ∈ sort_Strings l <-> x ∈ l.
Proof. unfold sort_Strings. by rewrite merge_sort_Permutation. Qed.

Lemma sort_Strings_sorted l : StronglySorted String.le (sort_Strings l).
Proof. apply (StronglySorted_merge_sort String.le). Qed.

Lemma sort_Strings_ascending l : NoDup l -> ascending (sort_Strings l).
Proof.
  intros Hnd. apply StronglySorted_strict; [apply sort_Strings_sorted|].
  unfold sort_Strings. by rewrite merge_sort_Permutation.
Qed.



(** ** Tag keys *)

Lemma elem_of_map_keys {V} (m : gmap string V) k :
  k ∈ map_keys m <-> is_Some (m !! k).
Proof.
  unfold map_keys. rewrite list_elem_of_fmap. split.
  - intros ([k' v] & -> & Hin). apply elem_of_map_to_list in Hin. by exists v.
  - intros [v Hv]. exists (k, v). split; [done|]. by apply elem_of_map_to_list.
Qed.

Lemma NoDup_map_keys {V} (m : gmap string V) : NoDup (map_keys m).
Proof. apply NoDup_fst_map_to_list. Qed.

Lemma is_Some_foldl_insert (l : list string) (m : gmap string bool) k :
  is_Some (foldl (fun m k => <[k := true]> m) m l !! k) <->
  k ∈ l \/ is_Some (m !! k).
Proof.
  revert m. induction l as [|a l IH]; intros m; simpl.
  - rewrite elem_of_nil. tauto.
  - rewrite IH, elem_of_cons, lookup_insert_is_Some.
    destruct (decide (a = k)); intuition congruence.
Qed.

Lemma is_Some_foldl_keys (keys : list TagKeys_t) (m : gmap string bool) k :
  is_Some (foldl (fun m ks => foldl (fun m k => <[k := true]> m) m (Keys ks))
                 m keys !! k) <->
  (exists ks, ks ∈ keys /\ k ∈ Keys ks) \/ is_Some (m !! k).
Proof.
  revert m. induction keys as [|ks keys IH]; intros m; simpl.
  - split; [tauto|]. intros [(ks & Hin & _)|?]; [|done]. by apply elem_of_nil in Hin.
  - rewrite IH, is_Some_foldl_insert. split.
    + intros [(ks' & Hin & Hk)|[Hk|Hm]]; [| |by right].
      * left. exists ks'. split; [by apply elem_of_cons; right|done].
      * left. exists ks. split; [by apply elem_of_cons; left|done].
    + intros [(ks' & Hin & Hk)|Hm]; [|by right; right].
      apply elem_of_cons in Hin as [->|Hin]; [by right; left|].
      left. by exists ks'.
Qed.

(** C7: a [TagKeys] request that reaches the index and gets keys from it
    without error returns an iterator over the union of those keys with the
    measurement key and the field key, strictly ascending, hence free of
    duplicates; both reserved keys are present whatever the index
    returned. *)
Theorem TagKeys_union s req auth ids cond keys :
  StoreTagKeys auth ids cond ∈ trace (TagKeys s req) ->
  TagKeys_ (store_TSDBStore s) auth ids cond = (keys, None) ->
  exists names,
    result (TagKeys s req) = Done (Some (NewStringSliceIterator names), None) /\
    ascending names /\
    measurementKey ∈ names /\ fieldKey ∈ names /\
    forall k, k ∈ names <->
              k = measurementKey \/ k = fieldKey \/
              exists ks, ks ∈ keys /\ k ∈ Keys ks.
Proof.
  intros Hin Hkeys.
  assert (forall m : gmap string bool,
            m = <[fieldKey := true]> (<[measurementKey := true]> ∅) ->
            forall k, is_Some (m !! k) <-> k = measurementKey \/ k = fieldKey) as Hm0.
  { intros m -> k. rewrite !lookup_insert_is_Some, lookup_empty, is_Some_alt.
    destruct (decide (fieldKey = k)), (decide (measurementKey = k));
      intuition congruence. }
  revert Hin. unfold TagKeys.
  destruct (tk_TagsSource req) as [any|]; norm; [|not_in].
  run_source; [|not_in].
  run_validate; [not_in|].
  run_shards; [not_in|not_in|].
  case_decide; norm; [not_in|].
  destruct (indexPredicate _) as [expr|e]; norm; [|not_in].
  rewrite !elem_of_cons. intros [?|[?|[?|Hin]]]; simplify_eq.
  2: { exfalso. clear Hkeys. revert Hin.
       destruct (TagKeys_ _ _ _ _) as [? [?|]]; not_in. }
  destruct auth. rewrite Hkeys. norm.
  eexists. split; [reflexivity|].
  assert (forall k,
    k ∈ sort_Strings (map_keys
      (foldl (fun m ks => foldl (fun m k => <[k := true]> m) m (Keys ks))
             (<[fieldKey := true]> (<[measurementKey := true]> ∅)) keys)) <->
    k = measurementKey \/ k = fieldKey \/ exists ks, ks ∈ keys /\ k ∈ Keys ks)
    as Hiff.
  { intros k. rewrite elem_of_sort_Strings, elem_of_map_keys, is_Some_foldl_keys.
    rewrite (Hm0 _ eq_refl). tauto. }
  split; [apply sort_Strings_ascending, NoDup_map_keys|].
  split; [apply Hiff; tauto|]. split; [apply Hiff; tauto|]. done.
Qed.

(** ** Loops *)

(** A loop whose body keeps an invariant over the elements visited so far
    runs to its end and establishes the invariant for the whole list. *)
Lemma for_range_invariant {A S} (P : A -> Prop) (Inv : list A -> S -> Prop)
    (body : S -> A -> M S) (l visited : list A) (s0 : S) :
  (forall visited s a,
     P a -> Inv visited s ->
     exists s', result (body s a) = Done s' /\ Inv (visited ++ [a]) s') ->
  Forall P l ->
  Inv visited s0 ->
  exists s', result (for_range l body s0) = Done s' /\ Inv (visited ++ l) s'.
Proof.
  intros Hbody Hl. revert visited s0.
  induction Hl as [|a l Ha Hl IH]; intros visited s0 Hinv; simpl.
  - exists s0. by rewrite app_nil_r.
  - destruct (Hbody visited s0 a Ha Hinv) as (s1 & Hres & Hinv1).
    destruct (IH _ _ Hinv1) as (s2 & Hres2 & Hinv2).
    exists s2. rewrite result_bind, Hres, Hres2.
    by rewrite <- app_assoc in Hinv2.
Qed.

(** ** The scan fallback *)

Lemma cursorHasData_ok c :
  cursor_ok c ->
  cursorHasData c = ([CursorNext c], Done (bool_decide (cursor_points c <> []))).
Proof.
  intros [Hkind Hbatches]. rewrite (cursorHasData_known c Hkind).
  unfold cursor_points. do 2 f_equal.
  destruct (cur_batches c) as [|b bs]; [done|].
  apply Forall_cons in Hbatches as [Hb _]. simpl.
  by destruct b as [|z b].
Qed.

(** C6: once [tagValuesSlow] has its series cursor, the value of the target
    tag of a series is in the result exactly when some series carrying that
    value has a data cursor that yields a point in the range; a series
    without a cursor, or whose cursor is empty, adds nothing; the result is
    strictly ascending, hence free of duplicates. *)
Theorem tagValuesSlow_values s mqAttrs tagKey ids cur :
  result (findShardIDs s (db mqAttrs) (rp mqAttrs) false
                       (start mqAttrs) (end_ mqAttrs)) = Done (ids, None) ->
  len ids <> 0%nat ->
  newIndexSeriesCursorInfluxQLPred (pred mqAttrs) (Shards_ (store_TSDBStore s) ids)
    = (Some cur, None) ->
  Forall (fun row => forall c,
            row_cursor row (start mqAttrs) (end_ mqAttrs) = Some c -> cursor_ok c)
         (sc_rows cur) ->
  exists names,
    result (tagValuesSlow s mqAttrs tagKey)
      = Done (Some (NewStringSliceIterator names), None) /\
    ascending names /\
    (forall v, v ∈ names <->
               exists row, row ∈ sc_rows cur /\
                           has_data row (start mqAttrs) (end_ mqAttrs) /\
                           Tags_Get (row_tags row) tagKey = v) /\
    (forall row, row ∈ sc_rows cur ->
                 has_data row (start mqAttrs) (end_ mqAttrs) ->
                 Tags_Get (row_tags row) tagKey ∈ names).
Proof.
  intros Hids Hlen Hcur Hrows. unfold tagValuesSlow.
  destruct (findShardIDs_run s (db mqAttrs) (rp mqAttrs) false
              (start mqAttrs) (end_ mqAttrs)) as (ids' & err & Hrun).
  rewrite Hrun in Hids |- *. simpl in Hids. simplify_eq. norm.
  rewrite decide_False by done. norm. rewrite Hcur. norm.
  rewrite result_bind.
  set (Inv := fun (visited : list SeriesRow) (m : gset string) =>
    forall v, v ∈ m <->
              exists row, row ∈ visited /\
                          has_data row (start mqAttrs) (end_ mqAttrs) /\
                          Tags_Get (row_tags row) tagKey = v).
  match goal with
  | |- context [for_range _ ?body _] =>
      destruct (for_range_invariant
                  (fun row => forall c,
                     row_cursor row (start mqAttrs) (end_ mqAttrs) = Some c ->
                     cursor_ok c)
                  Inv body (sc_rows cur) [] ∅) as (m & Hres & Hm);
        [ | exact Hrows | | ]
  end.
  - intros visited m row Hrow Hinv.
    destruct (row_cursor row _ _) as [c|] eqn:Hc; norm.
    + rewrite (cursorHasData_ok c) by eauto. unfold defer. norm.
      case_bool_decide as Hpts; norm; eexists; (split; [reflexivity|]).
      * intros v. rewrite elem_of_union, elem_of_singleton, (Hinv v).
        setoid_rewrite elem_of_app. setoid_rewrite list_elem_of_singleton.
        split.
        -- intros [->|(row' & Hin & Hd & Hv)]; [|by eauto 6].
           exists row. split; [by right|]. split; [by exists c|done].
        -- intros (row' & [Hin| ->] & Hd & Hv); [right; by eauto|by left].
      * intros v. rewrite (Hinv v).
        setoid_rewrite elem_of_app. setoid_rewrite list_elem_of_singleton.
        split.
        -- intros (row' & Hin & Hd & Hv). by eauto 6.
        -- intros (row' & [Hin| ->] & Hd & Hv); [by eauto|].
           destruct Hd as (c' & Hc' & Hne). by simplify_eq.
    + exists m. split; [done|]. intros v. rewrite (Hinv v).
      setoid_rewrite elem_of_app. setoid_rewrite list_elem_of_singleton.
      split.
      * intros (row' & Hin & Hd & Hv). by eauto 6.
      * intros (row' & [Hin| ->] & Hd & Hv); [by eauto|].
        destruct Hd as (c' & Hc' & Hne). by simplify_eq.
  - intros v. split; [by intros ?%elem_of_empty|].
    by intros (row & ?%elem_of_nil & _).
  - simpl in Hm. rewrite Hres. norm. eexists. split; [reflexivity|].
    assert (forall v, v ∈ sort_Strings (elements m) <->
              exists row, row ∈ sc_rows cur /\
                          has_data row (start mqAttrs) (end_ mqAttrs) /\
                          Tags_Get (row_tags row) tagKey = v) as Hiff.
    { intros v. rewrite elem_of_sort_Strings, elem_of_elements. apply Hm. }
    split; [apply sort_Strings_ascending, NoDup_elements|].
    split; [done|]. intros row Hin Hd. apply Hiff. eauto.
Qed.

(** ** Field names *)





(** * Further properties of store.go *)

(** ** findShardIDs *)

Lemma foldl_append_shards (shards : list ShardInfo) (acc : list N) :
  foldl (fun shardIDs si => shardIDs ++ [shard_ID si]) acc shards
    = acc ++ (shard_ID <$> shards).
Proof.
  revert acc. induction shards as [|si shards IH]; intros acc; simpl.
  - by rewrite app_nil_r.
  - rewrite IH. by rewrite <- app_assoc.
Qed.

Lemma foldl_append_groups (groups : list ShardGroupInfo) (acc : list N) :
  foldl (fun shardIDs g =>
           foldl (fun shardIDs si => shardIDs ++ [shard_ID si]) shardIDs (sg_Shards g))
        acc groups
    = acc ++ flat_map (fun g => shard_ID <$> sg_Shards g) groups.
Proof.
  revert acc. induction groups as [|g groups IH]; intros acc; simpl.
  - by rewrite app_nil_r.
  - rewrite IH, foldl_append_shards. by rewrite <- app_assoc.
Qed.

(** X1: when the metadata service returns at least one shard group and no
    error, [findShardIDs] returns a non-nil list: the shard IDs of the
    groups, group after group in the sorted order that [desc] selects, and
    inside a group in the order the metadata service gave them; neither
    sorted nor deduplicated at the shard level. *)
Theorem findShardIDs_flattens s d r desc a b groups :
  ShardGroupsByTimeRange_ (store_MetaClient s) d r a b = (groups, None) ->
  groups <> [] ->
  findShardIDs s d r desc a b =
    ([MetaShardGroupsByTimeRange d r a b],
     Done (mk_slice
             (flat_map (fun g => shard_ID <$> sg_Shards g)
                (if desc then sort_Reverse_ShardGroupInfos groups
                 else sort_ShardGroupInfos groups)),
           None)).
Proof.
  intros Hgroups Hne. unfold findShardIDs. norm. rewrite Hgroups. norm.
  rewrite decide_False by (by destruct groups).
  by rewrite foldl_append_groups.
Qed.

(** X2: [findShardIDs] makes exactly one call, the shard-group lookup with
    the database, policy and bounds it was given, never panics, and returns
    an error exactly when that lookup does, together with the nil list. *)
Theorem findShardIDs_one_lookup s d r desc a b :
  trace (findShardIDs s d r desc a b) = [MetaShardGroupsByTimeRange d r a b] /\
  exists ids,
    result (findShardIDs s d r desc a b) =
      Done (ids, (ShardGroupsByTimeRange_ (store_MetaClient s) d r a b).2) /\
    ((ShardGroupsByTimeRange_ (store_MetaClient s) d r a b).2 <> None ->
     ids = nil_slice).
Proof.
  unfold findShardIDs. norm.
  destruct (ShardGroupsByTimeRange_ _ d r a b) as [groups [e|]]; norm.
  - split; [done|]. by exists nil_slice.
  - case_decide; norm; (split; [done|]); eexists; (split; [reflexivity|done]).
Qed.

(** ** validateArgs *)

(** X3: [validateArgs] fails with "no database" when the metadata service
    does not know the database named after the bucket, with "invalid
    retention policy" when that database lacks the default policy, and in
    no other case; whenever it fails, the names it returns are empty and the
    bounds zero. *)
Theorem validateArgs_errors s orgID bucketID start end_ :
  (Database_ (store_MetaClient s) (ID_String bucketID) = None ->
   result (validateArgs s orgID bucketID start end_) =
     Done ("", "", 0, 0, Some (errors_New "no database"))) /\
  (forall di,
     Database_ (store_MetaClient s) (ID_String bucketID) = Some di ->
     RetentionPolicy di DefaultRetentionPolicyName = None ->
     result (validateArgs s orgID bucketID start end_) =
       Done ("", "", 0, 0, Some (errors_New "invalid retention policy"))) /\
  (forall database rp' start' end' err,
     result (validateArgs s orgID bucketID start end_) =
       Done (database, rp', start', end', Some err) ->
     database = "" /\ rp' = "" /\ start' = 0 /\ end' = 0 /\
     (err = errors_New "no database" \/ err = errors_New "invalid retention policy")).
Proof.
  unfold validateArgs. norm. split; [|split].
  - by intros ->.
  - by intros di -> ->.
  - intros database rp' start' end' err.
    destruct (Database_ _ _) as [di|]; norm.
    + destruct (RetentionPolicy di _); norm; intros [= <- <- <- <- <-]; auto 10.
    + intros [= <- <- <- <- <-]; auto 10.
Qed.

(** ** Validation comes first *)

Lemma validateArgs_invalid s o source st en e :
  match Database_ (store_MetaClient s) (ID_String (BucketID source)) with
  | None => Some (errors_New "no database")
  | Some di =>
      match RetentionPolicy di DefaultRetentionPolicyName with
      | None => Some (errors_New "invalid retention policy")
      | Some _ => None
      end
  end = Some e ->
  validateArgs s o (BucketID source) st en =
    ([MetaDatabase (ID_String (BucketID source))], Done ("", "", 0, 0, Some e)).
Proof.
  unfold validateArgs. norm.
  destruct (Database_ _ _) as [di|]; norm; [|by intros [= <-]].
  destruct (RetentionPolicy di _); norm; [done|by intros [= <-]].
Qed.

Ltac invalid_request Hinv :=
  let any := fresh "any" in
  let Hsrc := fresh "Hsrc" in
  unfold validation_error in Hinv;
  match type of Hinv with
  | match ?src with _ => _ end = _ =>
      destruct src as [any|]; simplify_eq/=; [|done]
  end;
  destruct (getReadSource_cases any) as [[? Hsrc]|[? Hsrc]];
  rewrite Hsrc in Hinv |- *; norm; simplify_eq/=; [|done];
  rewrite (validateArgs_invalid _ _ _ _ _ _ Hinv); norm;
  split; [done|]; split; [done|by repeat constructor].

(** X4: all four entry points check the request in the same order (read
    source present, decodable, database known, default retention policy
    present) and return the first failure with a nil result, leaving the
    request as it was, before any shard lookup and without contacting the
    storage engine. *)
Theorem request_validation_first s :
  (forall req e,
     validation_error s (rf_ReadSource req) = Some e ->
     result (ReadFilter s req) = Done (req, (None, Some e)) /\
     shard_lookups (trace (ReadFilter s req)) = [] /\
     meta_only (ReadFilter s req)) /\
  (forall req e,
     validation_error s (rg_ReadSource req) = Some e ->
     result (ReadGroup s req) = Done (req, (None, Some e)) /\
     shard_lookups (trace (ReadGroup s req)) = [] /\
     meta_only (ReadGroup s req)) /\
  (forall req e,
     validation_error s (tk_TagsSource req) = Some e ->
     result (TagKeys s req) = Done (None, Some e) /\
     shard_lookups (trace (TagKeys s req)) = [] /\
     meta_only (TagKeys s req)) /\
  (forall req e,
     validation_error s (tv_TagsSource req) = Some e ->
     result (TagValues s req) = Done (None, Some e) /\
     shard_lookups (trace (TagValues s req)) = [] /\
     meta_only (TagValues s req)).
Proof.
  unfold meta_only. split; [|split; [|split]]; intros req e Hinv.
  - unfold ReadFilter. invalid_request Hinv.
  - unfold ReadGroup. invalid_request Hinv.
  - unfold TagKeys. invalid_request Hinv.
  - unfold TagValues. invalid_request Hinv.
Qed.

(** ** The shard lookup of a request *)

Lemma shard_lookups_app t1 t2 :
  shard_lookups (t1 ++ t2) = shard_lookups t1 ++ shard_lookups t2.
Proof. unfold shard_lookups. apply omap_app. Qed.

Lemma shard_lookups_none t : Forall not_lookup t -> shard_lookups t = [].
Proof.
  induction 1 as [|e t He Ht IH]; [done|].
  destruct e; simpl in *; done.
Qed.

Lemma tagValuesSlow_lookups s mqAttrs tagKey :
  shard_lookups (trace (tagValuesSlow s mqAttrs tagKey)) =
    [(db mqAttrs, rp mqAttrs, start mqAttrs, end_ mqAttrs)].
Proof.
  unfold tagValuesSlow.
  run_shards; try done.
  case_decide; norm; [done|].
  destruct (newIndexSeriesCursorInfluxQLPred _ _) as [[cur|] [e|]]; norm;
    try done.
  f_equal. rewrite trace_bind, shard_lookups_app.
  rewrite (shard_lookups_none (trace (for_range _ _ _))).
  - destruct (result _); by norm.
  - apply for_range_trace_Forall. intros m row.
    destruct (row_cursor row _ _) as [c|]; norm; [|constructor].
    apply cursor_visit_trace; [done..|]. by intros [].
Qed.

Lemma measurementFields_lookups s mqAttrs :
  shard_lookups (trace (measurementFields s mqAttrs)) =
    [(db mqAttrs, rp mqAttrs, start mqAttrs, end_ mqAttrs)].
Proof.
  unfold measurementFields.
  destruct (match pred mqAttrs with Some _ => _ | None => _ end).
  { apply tagValuesSlow_lookups. }
  run_shards; try done.
  case_decide; norm; [done|].
  destruct (CreateIterator _ _ _) as [iter [e|]]; norm; [done|].
  destruct iter as [[points|]|]; norm; try done.
  f_equal. rewrite shard_lookups_app, trace_bind, shard_lookups_app.
  rewrite (shard_lookups_none (trace (for_range _ _ _))).
  - destruct (result _); by norm.
  - apply for_range_trace_Forall. intros names p.
    destruct (Aux p) as [|[name|] ?]; constructor.
Qed.

Lemma MeasurementNames_lookups s mqAttrs :
  shard_lookups (trace (MeasurementNames s mqAttrs)) = [] \/
  shard_lookups (trace (MeasurementNames s mqAttrs)) =
    [(db mqAttrs, rp mqAttrs, start mqAttrs, end_ mqAttrs)].
Proof.
  unfold MeasurementNames.
  destruct (match pred mqAttrs with Some _ => _ | None => _ end).
  { right. apply tagValuesSlow_lookups. }
  left. norm. by destruct (MeasurementNames_ _ _ _ _) as [values [e|]].
Qed.

(** X5: a request that passes validation looks for shards at most once on
    the string-iterator and filter paths, and always in the database named
    after the bucket, under the default retention policy, ascending, over
    the clamped range; this holds for [TagValues] on each of its paths, the
    measurement-name, field-name and scan paths included. For [ReadGroup]
    it holds of the first lookup. *)
Theorem shard_lookup_of_request s :
  (forall req q,
     q ∈ shard_lookups (trace (ReadFilter s req)) ->
     exists any source,
       rf_ReadSource req = Some any /\ getReadSource any = (Some source, None) /\
       shard_lookups (trace (ReadFilter s req)) =
         [request_lookup source (rf_Range req)]) /\
  (forall req q,
     q ∈ shard_lookups (trace (TagKeys s req)) ->
     exists any source,
       tk_TagsSource req = Some any /\ getReadSource any = (Some source, None) /\
       shard_lookups (trace (TagKeys s req)) =
         [request_lookup source (tk_Range req)]) /\
  (forall req q,
     q ∈ shard_lookups (trace (TagValues s req)) ->
     exists any source,
       tv_TagsSource req = Some any /\ getReadSource any = (Some source, None) /\
       shard_lookups (trace (TagValues s req)) =
         [request_lookup source (tv_Range req)]) /\
  (forall req q,
     head (shard_lookups (trace (ReadGroup s req))) = Some q ->
     exists any source,
       rg_ReadSource req = Some any /\ getReadSource any = (Some source, None) /\
       q = request_lookup source (rg_Range req)).
Proof.
  unfold request_lookup. split; [|split; [|split]]; intros req q.
  - unfold ReadFilter.
    destruct (rf_ReadSource req) as [any|]; norm; [|not_in].
    destruct (getReadSource_cases any) as [[source Hsrc]|[e Hsrc]];
      rewrite Hsrc; norm; [|not_in].
    run_validate; [not_in|].
    intros _. exists any, source. split; [done|]. split; [done|].
    run_shards; try done.
    case_decide; norm; [done|].
    by destruct (newIndexSeriesCursor _ _) as [[cur|] [e|]].
  - unfold TagKeys.
    destruct (tk_TagsSource req) as [any|]; norm; [|not_in].
    destruct (getReadSource_cases any) as [[source Hsrc]|[e Hsrc]];
      rewrite Hsrc; norm; [|not_in].
    run_validate; [not_in|].
    intros _. exists any, source. split; [done|]. split; [done|].
    run_shards; try done.
    case_decide; norm; [done|].
    destruct (indexPredicate _) as [expr|e]; norm; [|done].
    by destruct (TagKeys_ _ _ _ _) as [keys [e|]].
  - unfold TagValues.
    destruct (tv_TagsSource req) as [any|]; norm; [|not_in].
    destruct (getReadSource_cases any) as [[source Hsrc]|[e Hsrc]];
      rewrite Hsrc; norm; [|not_in].
    run_validate; [not_in|].
    destruct (metaPredicate _) as [influxqlPred|e]; norm; [|not_in].
    case_decide.
    { intros Hq. exists any, source. split; [done|]. split; [done|].
      pose proof (MeasurementNames_lookups s
        {| orgID := GetOrgID source; db := ID_String (BucketID source);
           rp := DefaultRetentionPolicyName;
           start := clamp_start (Start (tv_Range req));
           end_ := clamp_end (End (tv_Range req)); pred := influxqlPred |})
        as Hl.
      unfold shard_lookups in *. simpl in *.
      destruct Hl as [Hnone|Hone]; [|done].
      exfalso. apply (proj1 (elem_of_nil q)). rewrite <- Hnone. exact Hq. }
    case_decide.
    { intros _. exists any, source. split; [done|]. split; [done|].
      apply (measurementFields_lookups s
        {| orgID := GetOrgID source; db := ID_String (BucketID source);
           rp := DefaultRetentionPolicyName;
           start := clamp_start (Start (tv_Range req));
           end_ := clamp_end (End (tv_Range req)); pred := influxqlPred |}). }
    intros _. exists any, source. split; [done|]. split; [done|].
    run_shards; try done.
    case_decide; norm; [done|].
    destruct (indexPredicate _) as [expr|e]; norm; [|done].
    by destruct (TagValues_ _ _ _ _) as [values [e|]].
  - unfold ReadGroup.
    destruct (rg_ReadSource req) as [any|]; norm; [|done].
    destruct (getReadSource_cases any) as [[source Hsrc]|[e Hsrc]];
      rewrite Hsrc; norm; [|done].
    run_validate; [done|].
    intros Hq. exists any, source. split; [done|]. split; [done|].
    revert Hq. run_shards; by intros [= <-].
Qed.

Lemma tagValuesSlow_events s mqAttrs tagKey :
  Forall scan_event (trace (tagValuesSlow s mqAttrs tagKey)).
Proof.
  unfold tagValuesSlow.
  run_shards; try by repeat constructor.
  case_decide; norm; [by repeat constructor|].
  destruct (newIndexSeriesCursorInfluxQLPred _ _) as [[cur|] [e|]]; norm;
    try by repeat constructor.
  repeat (constructor; [done|]).
  rewrite trace_bind. apply Forall_app. split.
  - apply for_range_trace_Forall. intros m row.
    destruct (row_cursor row _ _) as [c|]; norm; [|constructor].
    apply cursor_visit_trace; [done..|]. by intros [].
  - destruct (result _); norm; constructor.
Qed.

(** ** What the listings make of the index's answer *)

Lemma TagKeys_index_outcome s req auth ids cond :
  StoreTagKeys auth ids cond ∈ trace (TagKeys s req) ->
  result (TagKeys s req) =
    match TagKeys_ (store_TSDBStore s) auth ids cond with
    | (_, Some err) => Done (Some EmptyStringIterator, Some err)
    | (keys, None) =>
        Done (Some (NewStringSliceIterator
                      (sort_Strings
                         (map_keys
                            (foldl (fun m ks =>
                                      foldl (fun m k => <[k := true]> m) m (Keys ks))
                                   (<[fieldKey := true]> (<[measurementKey := true]> ∅))
                                   keys)))),
              None)
    end.
Proof.
  unfold TagKeys.
  destruct (tk_TagsSource req) as [any|]; norm; [|not_in].
  run_source; [|not_in].
  run_validate; [not_in|].
  run_shards; [not_in|not_in|].
  case_decide; norm; [not_in|].
  destruct (indexPredicate _) as [expr|e]; norm; [|not_in].
  rewrite !elem_of_cons. intros [?|[?|[?|Hin]]]; simplify_eq.
  - destruct auth. by destruct (TagKeys_ _ _ _ _) as [keys [e|]].
  - exfalso. revert Hin. destruct (TagKeys_ _ _ _ _) as [? [?|]]; not_in.
Qed.

Lemma TagValues_index_outcome s req auth ids cond :
  StoreTagValues auth ids cond ∈ trace (TagValues s req) ->
  result (TagValues s req) =
    match TagValues_ (store_TSDBStore s) auth ids cond with
    | (_, Some err) => Done (None, Some err)
    | (values, None) =>
        Done (Some (NewStringSliceIterator
                      (sort_Strings
                         (elements
                            (foldl (fun (m : gset string) kvs =>
                                      foldl (fun (m : gset string) kv =>
                                               {[ kv_Value kv ]} ∪ m)
                                            m (Values kvs))
                                   ∅ values)))),
              None)
    end.
Proof.
  unfold TagValues.
  destruct (tv_TagsSource req) as [any|]; norm; [|not_in].
  run_source; [|not_in].
  run_validate; [not_in|].
  destruct (metaPredicate _) as [influxqlPred|e]; norm; [|not_in].
  case_decide.
  { intros [?|Hin]%elem_of_cons; [done|].
    pose proof (MeasurementNames_not_tag_values s
      {| orgID := GetOrgID x; db := ID_String (BucketID x);
         rp := DefaultRetentionPolicyName;
         start := clamp_start (Start (tv_Range req));
         end_ := clamp_end (End (tv_Range req)); pred := influxqlPred |}) as Hall.
    rewrite Forall_forall in Hall. by apply Hall in Hin. }
  case_decide.
  { intros [?|Hin]%elem_of_cons; [done|].
    pose proof (measurementFields_not_tag_values s
      {| orgID := GetOrgID x; db := ID_String (BucketID x);
         rp := DefaultRetentionPolicyName;
         start := clamp_start (Start (tv_Range req));
         end_ := clamp_end (End (tv_Range req)); pred := influxqlPred |}) as Hall.
    rewrite Forall_forall in Hall. by apply Hall in Hin. }
  run_shards; [not_in|not_in|].
  case_decide; norm; [not_in|].
  destruct (indexPredicate _) as [expr|e]; norm; [|not_in].
  rewrite !elem_of_cons. intros [?|[?|[?|Hin]]]; simplify_eq.
  - destruct auth. by destruct (TagValues_ _ _ _ _) as [values [e|]].
  - exfalso. revert Hin. destruct (TagValues_ _ _ _ _) as [? [?|]]; not_in.
Qed.

Lemma elem_of_foldl_add {A} (f : A -> string) (l : list A) (m : gset string) v :
  v ∈ foldl (fun (m : gset string) a => {[ f a ]} ∪ m) m l <->
  (exists a, a ∈ l /\ f a = v) \/ v ∈ m.
Proof.
  revert m. induction l as [|a l IH]; intros m; simpl.
  - split; [tauto|]. intros [(a & Hin & _)|?]; [|done]. by apply elem_of_nil in Hin.
  - rewrite IH, elem_of_union, elem_of_singleton. split.
    + intros [(a' & Hin & Hv)|[->|Hm]]; [| |by right].
      * left. exists a'. split; [by apply elem_of_cons; right|done].
      * left. exists a. split; [by apply elem_of_cons; left|done].
    + intros [(a' & Hin & Hv)|Hm]; [|by right; right].
      apply elem_of_cons in Hin as [->|Hin]; [by right; left|].
      left. by exists a'.
Qed.

Lemma elem_of_foldl_values (values : list TagValues_t) (m : gset string) v :
  v ∈ foldl (fun (m : gset string) kvs =>
               foldl (fun (m : gset string) kv => {[ kv_Value kv ]} ∪ m)
                     m (Values kvs))
            m values <->
  (exists kvs kv, kvs ∈ values /\ kv ∈ Values kvs /\ kv_Value kv = v) \/ v ∈ m.
Proof.
  revert m. induction values as [|kvs values IH]; intros m; simpl.
  - split; [tauto|]. intros [(kvs & kv & Hin & _)|?]; [|done].
    by apply elem_of_nil in Hin.
  - rewrite IH, (elem_of_foldl_add kv_Value). split.
    + intros [(kvs' & kv & Hin & Hkv & Hv)|[(kv & Hkv & Hv)|Hm]]; [| |by right].
      * left. exists kvs', kv. split; [by apply elem_of_cons; right|done].
      * left. exists kvs, kv. split; [by apply elem_of_cons; left|done].
    + intros [(kvs' & kv & Hin & Hkv & Hv)|Hm]; [|by right; right].
      apply elem_of_cons in Hin as [->|Hin]; [right; left; by exists kv|].
      left. by exists kvs', kv.
Qed.

(** X6: a [TagValues] request that reaches the index on the generic path
    and gets values from it without error returns an iterator over the
    values of all key/value pairs the index returned, whatever their keys
    and measurements, strictly ascending, hence free of duplicates. *)
Theorem TagValues_listing s req auth ids cond values :
  StoreTagValues auth ids cond ∈ trace (TagValues s req) ->
  TagValues_ (store_TSDBStore s) auth ids cond = (values, None) ->
  exists names,
    result (TagValues s req) = Done (Some (NewStringSliceIterator names), None) /\
    ascending names /\
    forall v, v ∈ names <->
              exists kvs kv, kvs ∈ values /\ kv ∈ Values kvs /\ kv_Value kv = v.
Proof.
  intros Hin Hvalues. rewrite (TagValues_index_outcome _ _ _ _ _ Hin), Hvalues.
  eexists. split; [reflexivity|].
  split; [apply sort_Strings_ascending, NoDup_elements|].
  intros v. rewrite elem_of_sort_Strings, elem_of_elements, elem_of_foldl_values.
  rewrite elem_of_empty. tauto.
Qed.

(** X7: an error of the index is passed on as it is: by [TagKeys] together
    with the empty string iterator, by [TagValues] and by the index path of
    [MeasurementNames] together with a nil iterator. *)
Theorem index_error_passed_on s :
  (forall req auth ids cond err,
     StoreTagKeys auth ids cond ∈ trace (TagKeys s req) ->
     (TagKeys_ (store_TSDBStore s) auth ids cond).2 = Some err ->
     result (TagKeys s req) = Done (Some EmptyStringIterator, Some err)) /\
  (forall req auth ids cond err,
     StoreTagValues auth ids cond ∈ trace (TagValues s req) ->
     (TagValues_ (store_TSDBStore s) auth ids cond).2 = Some err ->
     result (TagValues s req) = Done (None, Some err)) /\
  (forall mqAttrs auth database cond err,
     StoreMeasurementNames auth database cond ∈ trace (MeasurementNames s mqAttrs) ->
     (MeasurementNames_ (store_TSDBStore s) auth database cond).2 = Some err ->
     result (MeasurementNames s mqAttrs) = Done (None, Some err)).
Proof.
  split; [|split].
  - intros req auth ids cond err Hin Herr.
    rewrite (TagKeys_index_outcome _ _ _ _ _ Hin).
    destruct (TagKeys_ _ _ _ _) as [keys [e|]]; simpl in Herr; by simplify_eq.
  - intros req auth ids cond err Hin Herr.
    rewrite (TagValues_index_outcome _ _ _ _ _ Hin).
    destruct (TagValues_ _ _ _ _) as [values [e|]]; simpl in Herr; by simplify_eq.
  - intros mqAttrs auth database cond err. unfold MeasurementNames.
    destruct (match pred mqAttrs with Some _ => _ | None => _ end).
    { intros Hin. pose proof (tagValuesSlow_events s mqAttrs measurementKey) as Hall.
      rewrite Forall_forall in Hall. by apply Hall in Hin. }
    norm. rewrite !elem_of_cons. intros [Heq|Hin] Herr.
    + simplify_eq. destruct auth.
      destruct (MeasurementNames_ _ _ _ _) as [values [e|]]; simpl in Herr;
        by simplify_eq.
    + exfalso. clear Herr. revert Hin.
      destruct (MeasurementNames_ _ _ _ _) as [values [e|]]; norm; not_in.
Qed.

(** ** Measurement names *)

Lemma elem_of_foldl_names (values : list string) v :
  v ∈ foldl (fun (m : gset string) name => {[ name ]} ∪ m) ∅ values <-> v ∈ values.
Proof.
  rewrite (elem_of_foldl_add (fun name : string => name)), elem_of_empty.
  split; [|by eauto]. by intros [(a & Hin & <-)|[]].
Qed.

(** X8: [MeasurementNames] hands the request to [tagValuesSlow] for the
    measurement key when the predicate is present and [HasFieldKeyOrValue]
    reports a field key; otherwise, tag keys in the predicate
    notwithstanding, it makes one call, the measurement-name listing of the
    index for the bundle's database and predicate under the open
    authorizer, and returns the names strictly ascending, hence free of
    duplicates. *)
Theorem MeasurementNames_paths s mqAttrs :
  (forall p,
     pred mqAttrs = Some p ->
     (HasFieldKeyOrValue p).1 = true ->
     MeasurementNames s mqAttrs = tagValuesSlow s mqAttrs measurementKey) /\
  ((pred mqAttrs = None \/
    exists p, pred mqAttrs = Some p /\ (HasFieldKeyOrValue p).1 = false) ->
   forall values,
     MeasurementNames_ (store_TSDBStore s) OpenAuthorizer (db mqAttrs) (pred mqAttrs)
       = (values, None) ->
     exists names,
       MeasurementNames s mqAttrs =
         ([StoreMeasurementNames OpenAuthorizer (db mqAttrs) (pred mqAttrs)],
          Done (Some (NewStringSliceIterator names), None)) /\
       ascending names /\
       forall v, v ∈ names <-> v ∈ values).
Proof.
  split.
  - intros p Hp Hkey. unfold MeasurementNames. rewrite Hp.
    destruct (HasFieldKeyOrValue p) as [foundField foundValue].
    simpl in Hkey. by rewrite Hkey.
  - intros Hfast values Hvalues. unfold MeasurementNames.
    assert (match pred mqAttrs with
            | Some p => let '(foundField, _) := HasFieldKeyOrValue p in foundField
            | None => false
            end = false) as ->.
    { destruct Hfast as [-> | (p & -> & Hkey)]; [done|].
      by destruct (HasFieldKeyOrValue p). }
    norm. rewrite Hvalues. norm.
    eexists. split; [reflexivity|].
    split; [apply sort_Strings_ascending, NoDup_elements|].
    intros v. by rewrite elem_of_sort_Strings, elem_of_elements, elem_of_foldl_names.
Qed.

(** X9: on its index path [MeasurementNames] looks up no shards and uses
    neither the time range nor the retention policy nor the organization of
    the bundle: two bundles with the same database and predicate get the
    same answer after the same single call. *)
Theorem MeasurementNames_ignores_range s mqAttrs1 mqAttrs2 :
  db mqAttrs1 = db mqAttrs2 ->
  pred mqAttrs1 = pred mqAttrs2 ->
  (pred mqAttrs1 = None \/
   exists p, pred mqAttrs1 = Some p /\ (HasFieldKeyOrValue p).1 = false) ->
  MeasurementNames s mqAttrs1 = MeasurementNames s mqAttrs2 /\
  shard_lookups (trace (MeasurementNames s mqAttrs1)) = [].
Proof.
  intros Hdb Hpred Hfast. unfold MeasurementNames. rewrite <- Hdb, <- Hpred.
  assert (match pred mqAttrs1 with
          | Some p => let '(foundField, _) := HasFieldKeyOrValue p in foundField
          | None => false
          end = false) as ->.
  { destruct Hfast as [-> | (p & -> & Hkey)]; [done|].
    by destruct (HasFieldKeyOrValue p). }
  split; [done|]. norm.
  by destruct (MeasurementNames_ _ _ _ _) as [values [e|]].
Qed.

(** ** The scan fallback without a cursor *)

(** X10: once [tagValuesSlow] has shards, an error of the index series
    cursor constructor is passed on with a nil iterator, also when a cursor
    came with it, and a nil cursor without error gives a nil iterator and a
    nil error (not the empty iterator of the zero-shard case); in both
    cases after three calls: the shard lookup, the shards, the
    constructor. *)
Theorem tagValuesSlow_without_cursor s mqAttrs tagKey ids :
  result (findShardIDs s (db mqAttrs) (rp mqAttrs) false
                       (start mqAttrs) (end_ mqAttrs)) = Done (ids, None) ->
  len ids <> 0%nat ->
  (forall ic err,
     newIndexSeriesCursorInfluxQLPred (pred mqAttrs) (Shards_ (store_TSDBStore s) ids)
       = (ic, Some err) ->
     tagValuesSlow s mqAttrs tagKey =
       ([ MetaShardGroupsByTimeRange (db mqAttrs) (rp mqAttrs)
            (start mqAttrs) (end_ mqAttrs);
          StoreShards ids;
          IndexSeriesCursorInfluxQLPred (pred mqAttrs)
            (Shards_ (store_TSDBStore s) ids) ],
        Done (None, Some err))) /\
  (newIndexSeriesCursorInfluxQLPred (pred mqAttrs) (Shards_ (store_TSDBStore s) ids)
     = (None, None) ->
   tagValuesSlow s mqAttrs tagKey =
     ([ MetaShardGroupsByTimeRange (db mqAttrs) (rp mqAttrs)
          (start mqAttrs) (end_ mqAttrs);
        StoreShards ids;
        IndexSeriesCursorInfluxQLPred (pred mqAttrs)
          (Shards_ (store_TSDBStore s) ids) ],
      Done (None, None))).
Proof.
  intros Hids Hlen.
  destruct (findShardIDs_run s (db mqAttrs) (rp mqAttrs) false
              (start mqAttrs) (end_ mqAttrs)) as (ids' & err' & Hrun).
  rewrite Hrun in Hids. simpl in Hids. simplify_eq.
  split.
  - intros ic err Hic. unfold tagValuesSlow. rewrite Hrun. norm.
    rewrite decide_False by done. norm. by rewrite Hic.
  - intros Hic. unfold tagValuesSlow. rewrite Hrun. norm.
    rewrite decide_False by done. norm. by rewrite Hic.
Qed.

(** ** Predicate blocks of TagValues *)

(** X18: the two predicate translations of [TagValues] (lines 298-314 and
    347-364) fail on the same predicates with the same error, so the second
    one, made after the first has passed, never returns an error. *)
Theorem second_translation_cannot_fail p :
  (forall e, indexPredicate p = inr e <-> metaPredicate p = inr e) /\
  (forall influxqlPred,
     metaPredicate p = inl influxqlPred -> exists expr, indexPredicate p = inl expr).
Proof.
  unfold indexPredicate, metaPredicate.
  destruct (GetRoot p) as [root|]; [|by eauto].
  destruct (NodeToExpr root measurementRemap) as [expr [e|]]; [by split|].
  destruct (HasFieldValueKey expr); [by split|].
  split.
  - intros e. by destruct (IsTrueBooleanLiteral _), (IsTrueBooleanLiteral _).
  - intros _ _. destruct (IsTrueBooleanLiteral _); by eauto.
Qed.

(** ** Cursors and iterators are closed *)

Lemma for_range_app {A S} (l1 l2 : list A) (body : S -> A -> M S) (s0 : S) :
  for_range (l1 ++ l2) body s0 = for_range l1 body s0 ≫= for_range l2 body.
Proof.
  revert s0. induction l1 as [|a l1 IH]; intros s0; simpl.
  - by rewrite bind_ret.
  - destruct (body s0 a) as [t [s1|msg]]; norm; [|done].
    rewrite IH. destruct (for_range l1 body s1) as [t1 [s2|msg]]; norm; [|done].
    by rewrite app_assoc.
Qed.

(** A loop whose body always completes, with a trace that depends on the
    element only, completes with the traces of its elements in order. *)
Lemma for_range_trace_flat_map {A S} (P : A -> Prop) (f : A -> list Event)
    (body : S -> A -> M S) (l : list A) (s0 : S) :
  (forall s a, P a -> trace (body s a) = f a /\ exists s', result (body s a) = Done s') ->
  Forall P l ->
  trace (for_range l body s0) = flat_map f l /\
  exists s', result (for_range l body s0) = Done s'.
Proof.
  intros Hbody Hl. revert s0.
  induction Hl as [|a l Ha Hl IH]; intros s0; simpl.
  - split; [done|by eauto].
  - destruct (Hbody s0 a Ha) as (Ht & s1 & Hr).
    destruct (IH s1) as (Ht' & s2 & Hr').
    rewrite trace_bind, result_bind, Hr, Ht, Ht', Hr'. by eauto.
Qed.


(** X12: a data cursor of any other type makes [tagValuesSlow] panic at the
    first series that has one; the deferred close of that cursor still
    runs, and is the last call made. *)
Theorem tagValuesSlow_unknown_cursor_panics s mqAttrs tagKey ids cur before row after c :
  result (findShardIDs s (db mqAttrs) (rp mqAttrs) false
                       (start mqAttrs) (end_ mqAttrs)) = Done (ids, None) ->
  len ids <> 0%nat ->
  newIndexSeriesCursorInfluxQLPred (pred mqAttrs) (Shards_ (store_TSDBStore s) ids)
    = (Some cur, None) ->
  sc_rows cur = before ++ row :: after ->
  Forall (fun row => forall c,
            row_cursor row (start mqAttrs) (end_ mqAttrs) = Some c ->
            cur_kind c <> UnknownCursor)
         before ->
  row_cursor row (start mqAttrs) (end_ mqAttrs) = Some c ->
  cur_kind c = UnknownCursor ->
  (exists msg, result (tagValuesSlow s mqAttrs tagKey) = Panicked msg) /\
  last (trace (tagValuesSlow s mqAttrs tagKey)) = Some (CursorClose c).
Proof.
  intros Hids Hlen Hcur Hrows Hbefore Hc Hkind. unfold tagValuesSlow.
  destruct (findShardIDs_run s (db mqAttrs) (rp mqAttrs) false
              (start mqAttrs) (end_ mqAttrs)) as (ids' & err & Hrun).
  rewrite Hrun in Hids |- *. simpl in Hids. simplify_eq. norm.
  rewrite decide_False by done. norm. rewrite Hcur. norm.
  rewrite Hrows, for_range_app.
  match goal with
  | |- context [for_range before ?body _] =>
      destruct (for_range_trace_flat_map
                  (fun row => forall c,
                     row_cursor row (start mqAttrs) (end_ mqAttrs) = Some c ->
                     cur_kind c <> UnknownCursor)
                  (fun row =>
                     match row_cursor row (start mqAttrs) (end_ mqAttrs) with
                     | Some c => [CursorNext c; CursorClose c]
                     | None => []
                     end)
                  body before ∅) as (Ht & m & Hr); [ | exact Hbefore | ]
  end.
  - intros m row' Hrow'. destruct (row_cursor row' _ _) as [c'|]; norm; [|by eauto].
    rewrite (cursorHasData_known c') by eauto. unfold defer. norm.
    destruct (negb _); norm; by eauto.
  - rewrite !trace_bind, !result_bind, Hr. simpl.
    rewrite trace_bind, result_bind, Hc.
    rewrite (cursorHasData_unknown c Hkind). unfold defer. norm.
    split; [by eauto|].
    rewrite app_nil_r, app_comm_cons. apply last_snoc.
Qed.

(** X13: on its iterator path, with shards at hand, [measurementFields]
    closes the iterator it obtained exactly once, as its last call, whether
    it returns or panics; when the iterator could not be created it passes
    the error on and closes nothing; an iterator that is not a float
    iterator makes it panic. *)
Theorem measurementFields_closes_iterator s mqAttrs ids :
  (pred mqAttrs = None \/
   exists p, pred mqAttrs = Some p /\
             (HasFieldKeyOrValue p).1 = false /\ hasTagKey p = false) ->
  result (findShardIDs s (db mqAttrs) (rp mqAttrs) false
                       (start mqAttrs) (end_ mqAttrs)) = Done (ids, None) ->
  len ids <> 0%nat ->
  let sg := ShardGroup_ (store_TSDBStore s) ids in
  let ms := {| ms_Database := db mqAttrs;
               ms_RetentionPolicy := rp mqAttrs;
               ms_SystemIterator := "_fieldKeys" |} in
  let opts := {| opt_OrgID := orgID mqAttrs;
                 opt_Condition := pred mqAttrs;
                 opt_Authorizer := OpenAuthorizer |} in
  let calls := [ MetaShardGroupsByTimeRange (db mqAttrs) (rp mqAttrs)
                   (start mqAttrs) (end_ mqAttrs);
                 StoreShardGroup ids;
                 GroupCreateIterator (sgrp_ids sg) ms opts ] in
  (forall iter,
     CreateIterator sg ms opts = (Some iter, None) ->
     trace (measurementFields s mqAttrs) = calls ++ [IteratorClose]) /\
  (forall iter err,
     CreateIterator sg ms opts = (iter, Some err) ->
     measurementFields s mqAttrs = (calls, Done (None, Some err))) /\
  (CreateIterator sg ms opts = (Some OtherIterator, None) ->
   exists msg, result (measurementFields s mqAttrs) = Panicked msg).
Proof.
  intros Hfast Hids Hlen sg ms opts calls. subst sg ms opts calls.
  assert (match pred mqAttrs with
          | Some p => let '(foundField, _) := HasFieldKeyOrValue p in
                      if foundField then true else hasTagKey p
          | None => false
          end = false) as Hslow.
  { destruct Hfast as [-> | (p & -> & Hkey & Htag)]; [done|].
    destruct (HasFieldKeyOrValue p). simpl in Hkey. by rewrite Hkey, Htag. }
  destruct (findShardIDs_run s (db mqAttrs) (rp mqAttrs) false
              (start mqAttrs) (end_ mqAttrs)) as (ids' & err' & Hrun).
  rewrite Hrun in Hids. simpl in Hids. simplify_eq.
  split; [|split].
  - intros iter Hiter. unfold measurementFields. rewrite Hslow, Hrun. norm.
    rewrite decide_False by done. norm. rewrite Hiter. norm.
    do 3 f_equal. destruct iter as [points|]; [|done].
    unfold defer. simpl. rewrite trace_bind.
    match goal with
    | |- context [trace (for_range ?l ?body ?s0)] =>
        assert (Forall (fun _ : Event => False) (trace (for_range l body s0)))
          as Hnone
    end.
    { apply for_range_trace_Forall. intros names p.
      destruct (Aux p) as [|[name|] aux]; constructor. }
    destruct (trace (for_range _ _ _)) as [|e t];
      [|by apply Forall_cons in Hnone as [[] _]].
    destruct (result _); by norm.
  - intros iter err Hiter. unfold measurementFields. rewrite Hslow, Hrun. norm.
    rewrite decide_False by done. norm. by rewrite Hiter.
  - intros Hiter. unfold measurementFields. rewrite Hslow, Hrun. norm.
    rewrite decide_False by done. norm. rewrite Hiter. norm. by eauto.
Qed.

(** ** The row readers *)

(** X14: with a valid source and shards at hand, [ReadGroup] stores the
    clamped range in the request before it builds the group result set, so
    the caller's request is changed whatever comes back, a nil result set
    included; the cursor factory it hands over calls the index series
    cursor constructor on the request's predicate and the shards, and
    yields a cursor only when the constructor returned one without error,
    otherwise nil with the constructor's error. *)
Theorem ReadGroup_mutates_first s req source ids :
  source_valid s (rg_ReadSource req) source ->
  shards_found s source (rg_Range req) ids ->
  let req' := {| rg_ReadSource := rg_ReadSource req;
                 rg_Range := {| Start := clamp_start (Start (rg_Range req));
                                End := clamp_end (End (rg_Range req)) |};
                 rg_Predicate := rg_Predicate req |} in
  let shards := Shards_ (store_TSDBStore s) ids in
  let newCursor : M (goret SeriesCursor) :=
    ([IndexSeriesCursor (rg_Predicate req) shards],
     Done match newIndexSeriesCursor (rg_Predicate req) shards with
          | (Some cur, None) => (Some cur, None)
          | (_, err) => (None, err)
          end) in
  trace (ReadGroup s req) =
    [ MetaDatabase (ID_String (BucketID source));
      MetaShardGroupsByTimeRange (ID_String (BucketID source))
        DefaultRetentionPolicyName
        (clamp_start (Start (rg_Range req))) (clamp_end (End (rg_Range req)));
      StoreShards ids ]
    ++ trace (NewGroupResultSet req' newCursor) /\
  result (ReadGroup s req) =
    match result (NewGroupResultSet req' newCursor) with
    | Done rs => Done (req', (rs, None))
    | Panicked msg => Panicked msg
    end.
Proof.
  intros Hvalid Hfound req' shards newCursor. subst req' shards newCursor.
  unfold ReadGroup.
  destruct Hvalid as (any & di & rpi & Hany & Hsrc & Hdi & Hrpi).
  rewrite Hany in *. rewrite Hsrc. norm.
  rewrite (validateArgs_ok _ _ _ _ _ _ _ Hdi Hrpi). norm.
  rewrite (findShardIDs_found _ _ _ _ Hfound). norm.
  destruct Hfound as [_ Hlen]. rewrite decide_False by done. norm.
  match goal with
  | |- context [NewGroupResultSet ?r ?nc] =>
      assert (nc = ([IndexSeriesCursor (rg_Predicate req)
                       (Shards_ (store_TSDBStore s) ids)],
                    Done match newIndexSeriesCursor (rg_Predicate req)
                                 (Shards_ (store_TSDBStore s) ids) with
                         | (Some cur, None) => (Some cur, None)
                         | (_, err) => (None, err)
                         end)) as ->
  end.
  { norm. by destruct (newIndexSeriesCursor _ _) as [[cur|] [e|]]. }
  rewrite trace_bind, result_bind.
  destruct (NewGroupResultSet _ _) as [t [[rs|]|msg]]; simpl;
    by rewrite ?app_nil_r.
Qed.

(** X15: with a valid source and shards at hand, [ReadFilter] makes four
    calls (database, shard groups, shards, index series cursor) and what it
    returns follows the cursor constructor: its error with a nil result
    set, also when a cursor came with it; a nil result set and a nil error
    for a nil cursor; otherwise the cursor wrapped in a result set bounded
    by the clamped range, which is also stored in the request. *)
Theorem ReadFilter_outcomes s req source ids :
  source_valid s (rf_ReadSource req) source ->
  shards_found s source (rf_Range req) ids ->
  let shards := Shards_ (store_TSDBStore s) ids in
  let start' := clamp_start (Start (rf_Range req)) in
  let end' := clamp_end (End (rf_Range req)) in
  ReadFilter s req =
    ([ MetaDatabase (ID_String (BucketID source));
       MetaShardGroupsByTimeRange (ID_String (BucketID source))
         DefaultRetentionPolicyName start' end';
       StoreShards ids;
       IndexSeriesCursor (rf_Predicate req) shards ],
     Done match newIndexSeriesCursor (rf_Predicate req) shards with
          | (_, Some err) => (req, (None, Some err))
          | (None, None) => (req, (None, None))
          | (Some cur, None) =>
              ({| rf_ReadSource := rf_ReadSource req;
                  rf_Range := {| Start := start'; End := end' |};
                  rf_Predicate := rf_Predicate req |},
               (Some (NewFilteredResultSet start' end' cur), None))
          end).
Proof.
  intros Hvalid Hfound shards start' end'. subst shards start' end'.
  unfold ReadFilter.
  destruct Hvalid as (any & di & rpi & Hany & Hsrc & Hdi & Hrpi).
  rewrite Hany in *. rewrite Hsrc. norm.
  rewrite (validateArgs_ok _ _ _ _ _ _ _ Hdi Hrpi). norm.
  rewrite (findShardIDs_found _ _ _ _ Hfound). norm.
  destruct Hfound as [_ Hlen]. rewrite decide_False by done. norm.
  by destruct (newIndexSeriesCursor _ _) as [[cur|] [e|]].
Qed.

(** X16: [TagKeys] never panics and makes at most three calls, in this
    order: the database lookup, the shard-group lookup, and one tag-key
    query of the index under the open authorizer; it opens no shard,
    cursor or iterator. *)
Theorem TagKeys_contacts s req :
  (exists out, result (TagKeys s req) = Done out) /\
  exists d r a b ids cond,
    trace (TagKeys s req) `prefix_of`
      [ MetaDatabase d; MetaShardGroupsByTimeRange d r a b;
        StoreTagKeys OpenAuthorizer ids cond ].
Proof.
  unfold TagKeys.
  destruct (tk_TagsSource req) as [any|]; norm.
  2: { split; [by eauto|]. exists "", "", 0, 0, nil_slice, None. by eexists. }
  run_source.
  2: { split; [by eauto|]. exists "", "", 0, 0, nil_slice, None. by eexists. }
  run_validate.
  { split; [by eauto|]. eexists _, "", 0, 0, nil_slice, None. by eexists. }
  run_shards.
  - split; [by eauto|]. eexists _, _, _, _, nil_slice, None. by eexists.
  - split; [by eauto|]. eexists _, _, _, _, nil_slice, None. by eexists.
  - case_decide; norm.
    { split; [by eauto|]. eexists _, _, _, _, nil_slice, None. by eexists. }
    destruct (indexPredicate _) as [expr|e]; norm.
    2: { split; [by eauto|]. eexists _, _, _, _, nil_slice, None. by eexists. }
    destruct (TagKeys_ _ _ _ _) as [keys [e|]]; norm;
      (split; [by eauto|]); eexists _, _, _, _, _, _; by exists [].
Qed.

(** X17: [cursorHasData] returns only for the five array cursor types,
    makes one call, the [Next] of the cursor (it reads no second array and
    leaves closing to its caller), and answers by the first array alone:
    true exactly when that array is not empty. So a true
    answer always means that the cursor yields a point, and a false answer
    means that it yields none provided the cursor returns an empty array
    only once exhausted. *)
Theorem cursorHasData_first_array c hasData :
  result (cursorHasData c) = Done hasData ->
  trace (cursorHasData c) = [CursorNext c] /\
  cur_kind c <> UnknownCursor /\
  (hasData = true <-> hd [] (cur_batches c) <> []) /\
  (hasData = true -> cursor_points c <> []) /\
  (Forall (fun batch => batch <> []) (cur_batches c) ->
   hasData = false -> cursor_points c = []).
Proof.
  intros Hres.
  assert (cur_kind c <> UnknownCursor) as Hkind.
  { intros Hkind. by rewrite (cursorHasData_unknown c Hkind) in Hres. }
  rewrite (cursorHasData_known c Hkind) in Hres |- *.
  split; [done|]. split; [done|]. simpl in Hres. simplify_eq.
  unfold cursor_points.
  destruct (cur_batches c) as [|[|z batch] batches]; simpl.
  - split; [split; [done|by intros []]|]. split; done.
  - split; [split; [done|by intros []]|]. split; [done|].
    by intros [? _]%Forall_cons.
  - split; [done|]. split; done.
Qed.

(** X19: on the iterator path of [measurementFields], a point whose first
    auxiliary value is not a string makes it panic at that point; the
    deferred close of the iterator still runs and is the last call. *)
Theorem measurementFields_non_string_panics s mqAttrs ids before p after :
  (pred mqAttrs = None \/
   exists p, pred mqAttrs = Some p /\
             (HasFieldKeyOrValue p).1 = false /\ hasTagKey p = false) ->
  result (findShardIDs s (db mqAttrs) (rp mqAttrs) false
                       (start mqAttrs) (end_ mqAttrs)) = Done (ids, None) ->
  len ids <> 0%nat ->
  CreateIterator (ShardGroup_ (store_TSDBStore s) ids)
    {| ms_Database := db mqAttrs;
       ms_RetentionPolicy := rp mqAttrs;
       ms_SystemIterator := "_fieldKeys" |}
    {| opt_OrgID := orgID mqAttrs;
       opt_Condition := pred mqAttrs;
       opt_Authorizer := OpenAuthorizer |}
    = (Some (FloatIterator (before ++ p :: after)), None) ->
  Forall (fun p => hd_error (Aux p) <> Some AuxOther) before ->
  hd_error (Aux p) = Some AuxOther ->
  (exists msg, result (measurementFields s mqAttrs) = Panicked msg) /\
  last (trace (measurementFields s mqAttrs)) = Some IteratorClose.
Proof.
  intros Hfast Hids Hlen Hiter Hbefore Hp.
  assert (match pred mqAttrs with
          | Some p => let '(foundField, _) := HasFieldKeyOrValue p in
                      if foundField then true else hasTagKey p
          | None => false
          end = false) as Hslow.
  { destruct Hfast as [-> | (p' & -> & Hkey & Htag)]; [done|].
    destruct (HasFieldKeyOrValue p'). simpl in Hkey. by rewrite Hkey, Htag. }
  destruct (findShardIDs_run s (db mqAttrs) (rp mqAttrs) false
              (start mqAttrs) (end_ mqAttrs)) as (ids' & err' & Hrun).
  rewrite Hrun in Hids. simpl in Hids. simplify_eq.
  split.
  - unfold measurementFields. rewrite Hslow, Hrun. norm.
    rewrite decide_False by done. norm. rewrite Hiter. norm.
    unfold defer. simpl. rewrite result_bind, for_range_app, result_bind.
    match goal with
    | |- context [for_range before ?body ?s0] =>
        destruct (for_range_invariant
                    (fun p => hd_error (Aux p) <> Some AuxOther)
                    (fun _ _ => True) body before [] s0)
          as (names & Hres & _); [ | exact Hbefore | done | ]
    end.
    + intros visited names p' Hp' _.
      destruct (Aux p') as [|[name|] aux]; [| |done];
        (eexists; split; [reflexivity|done]).
    + rewrite Hres. simpl. rewrite result_bind.
      destruct (Aux p) as [|[name|] aux]; simplify_eq/=. by eauto.
  - unfold measurementFields. rewrite Hslow, Hrun. norm.
    rewrite decide_False by done. norm. rewrite Hiter. norm.
    unfold defer. simpl. rewrite app_comm_cons. apply last_snoc.
Qed.

(** X20: a wire predicate that the translator rejects makes [TagValues]
    fail with the translator's error after the database lookup alone, and
    [TagKeys] after its shard lookup has found shards; neither contacts the
    storage engine. *)
Theorem translation_error_passed_on s :
  (forall req source root expr err,
     source_valid s (tv_TagsSource req) source ->
     GetRoot (tv_Predicate req) = Some root ->
     NodeToExpr root measurementRemap = (expr, Some err) ->
     TagValues s req =
       ([MetaDatabase (ID_String (BucketID source))], Done (None, Some err))) /\
  (forall req source ids root expr err,
     source_valid s (tk_TagsSource req) source ->
     shards_found s source (tk_Range req) ids ->
     GetRoot (tk_Predicate req) = Some root ->
     NodeToExpr root measurementRemap = (expr, Some err) ->
     TagKeys s req =
       ([ MetaDatabase (ID_String (BucketID source));
          MetaShardGroupsByTimeRange (ID_String (BucketID source))
            DefaultRetentionPolicyName
            (clamp_start (Start (tk_Range req))) (clamp_end (End (tk_Range req))) ],
        Done (None, Some err))).
Proof.
  split.
  - intros req source root expr err Hvalid Hroot Hexpr. unfold TagValues.
    use_source Hvalid. unfold metaPredicate. by rewrite Hroot, Hexpr.
  - intros req source ids root expr err Hvalid Hfound Hroot Hexpr. unfold TagKeys.
    use_source Hvalid.
    rewrite (findShardIDs_found _ _ _ _ Hfound). norm.
    destruct Hfound as [_ Hlen]. rewrite decide_False by done.
    unfold indexPredicate. by rewrite Hroot, Hexpr.
Qed.

(** X21: shard groups that hold no shard count as zero shards too:
    [findShardIDs] then returns an empty list that is not nil, and a valid
    [TagKeys] or [ReadFilter] request returns as it does when there is no
    group, the empty iterator or the nil result set, after the two metadata
    calls. *)
Theorem groups_without_shards s req_keys req_filter source groups :
  source_valid s (tk_TagsSource req_keys) source ->
  source_valid s (rf_ReadSource req_filter) source ->
  tk_Range req_keys = rf_Range req_filter ->
  ShardGroupsByTimeRange_ (store_MetaClient s) (ID_String (BucketID source))
    DefaultRetentionPolicyName
    (clamp_start (Start (tk_Range req_keys))) (clamp_end (End (tk_Range req_keys)))
    = (groups, None) ->
  groups <> [] ->
  Forall (fun g => sg_Shards g = []) (sort_ShardGroupInfos groups) ->
  let lookup :=
    [ MetaDatabase (ID_String (BucketID source));
      MetaShardGroupsByTimeRange (ID_String (BucketID source))
        DefaultRetentionPolicyName
        (clamp_start (Start (tk_Range req_keys)))
        (clamp_end (End (tk_Range req_keys))) ] in
  result (findShardIDs s (ID_String (BucketID source)) DefaultRetentionPolicyName
            false (clamp_start (Start (tk_Range req_keys)))
            (clamp_end (End (tk_Range req_keys))))
    = Done (mk_slice [], None) /\
  TagKeys s req_keys = (lookup, Done (Some EmptyStringIterator, None)) /\
  ReadFilter s req_filter = (lookup, Done (req_filter, (None, None))).
Proof.
  intros Hkeys Hfilter Hrange Hgroups Hne Hempty lookup. subst lookup.
  assert (findShardIDs s (ID_String (BucketID source)) DefaultRetentionPolicyName
            false (clamp_start (Start (tk_Range req_keys)))
            (clamp_end (End (tk_Range req_keys)))
          = ([MetaShardGroupsByTimeRange (ID_String (BucketID source))
                DefaultRetentionPolicyName
                (clamp_start (Start (tk_Range req_keys)))
                (clamp_end (End (tk_Range req_keys)))],
             Done (mk_slice [], None))) as Hfind.
  { unfold findShardIDs. norm. rewrite Hgroups. norm.
    rewrite decide_False by (by destruct groups).
    rewrite foldl_append_groups. do 3 f_equal.
    induction Hempty as [|g gs Hg Hgs IH]; [done|]. simpl. by rewrite Hg. }
  split; [by rewrite Hfind|]. split.
  - unfold TagKeys. use_source Hkeys. by rewrite Hfind.
  - unfold ReadFilter. use_source Hfilter. rewrite <- Hrange. by rewrite Hfind.
Qed.

End Properties.

(** * The properties on the reference instantiation *)

#[local] Existing Instance Demo.externals.

Lemma zero_shards_short_circuit_witness :
  result (TagKeys Demo.store (Demo.tagKeysRequest (Demo.range 90000 100000) None))
    = Done (Some EmptyStringIterator, None) /\
  result (ReadFilter Demo.store (Demo.readFilterRequest (Demo.range 90000 100000)))
    = Done (Demo.readFilterRequest (Demo.range 90000 100000), (None, None)).
Proof.
  destruct (zero_shards_short_circuit Demo.store) as (_ & Hrf & _ & Htk & _).
  split.
  - apply Htk. exists ("0000000000000002", "autogen", 90000, 100000).
    split; reflexivity.
  - apply Hrf. exists ("0000000000000002", "autogen", 90000, 100000).
    split; reflexivity.
Defined.

(** C1, as stated, fails: with no shard group in the range, [findShardIDs]
    returns the nil list rather than an empty one, and [ReadFilter] returns
    a nil result set. *)
Lemma zero_shards_absent_counterexample :
  finds_no_group Demo.store ("0000000000000002", "autogen", 90000, 100000) /\
  result (findShardIDs Demo.store "0000000000000002" "autogen" false 90000 100000)
    = Done (nil_slice, None) /\
  result (findShardIDs Demo.store "0000000000000002" "autogen" false 90000 100000)
    <> Done (mk_slice [], None) /\
  zero_shards Demo.store
    (ReadFilter Demo.store (Demo.readFilterRequest (Demo.range 90000 100000))) /\
  (result (ReadFilter Demo.store (Demo.readFilterRequest (Demo.range 90000 100000))))
    = Done (Demo.readFilterRequest (Demo.range 90000 100000), (None, None)).
Proof.
  split; [reflexivity|]. split; [reflexivity|]. split; [discriminate|].
  split; [|reflexivity].
  exists ("0000000000000002", "autogen", 90000, 100000). split; reflexivity.
Qed.

Lemma field_value_predicate_rejected_witness :
  TagValues Demo.store (Demo.tagValuesRequest "host" (Some Demo.value_pred)) =
    ([MetaDatabase "0000000000000002"],
     Done (None, Some (errors_New "field values unsupported"))) /\
  result (TagKeys Demo.store
            (Demo.tagKeysRequest (Demo.range 0 10) (Some Demo.value_pred))) =
    Done (None, Some (errors_New "field values unsupported")).
Proof.
  assert (references_field_value (Some Demo.value_pred)) as Hpred.
  { exists (Some Demo.value_expr). split; [|reflexivity].
    eexists. split; reflexivity. }
  assert (forall src, src = Some Demo.source ->
            source_valid Demo.store src Demo.readSource) as Hvalid.
  { intros src ->. exists Demo.source, Demo.database, {| rpi_Name := "autogen" |}.
    repeat split; reflexivity. }
  destruct (field_value_predicate_rejected Demo.store) as [Htv Htk]. split.
  - apply (Htv (Demo.tagValuesRequest "host" (Some Demo.value_pred))
               Demo.readSource Hpred (Hvalid _ eq_refl)).
  - apply (Htk (Demo.tagKeysRequest (Demo.range 0 10) (Some Demo.value_pred))
               Demo.readSource (mk_slice [1%N]) Hpred (Hvalid _ eq_refl)).
    split; [reflexivity|discriminate].
Defined.

(** C2, as stated, fails: a [TagKeys] request whose predicate references a
    field value, in a range without shards, is answered with the empty
    iterator and no error. *)
Lemma TagKeys_field_value_counterexample :
  references_field_value (Some Demo.value_pred) /\
  source_valid Demo.store (Some Demo.source) Demo.readSource /\
  TagKeys Demo.store
    (Demo.tagKeysRequest (Demo.range 90000 100000) (Some Demo.value_pred)) =
    ([MetaDatabase "0000000000000002";
      MetaShardGroupsByTimeRange "0000000000000002" "autogen" 90000 100000],
     Done (Some EmptyStringIterator, None)).
Proof.
  split; [|split; [|reflexivity]].
  - exists (Some Demo.value_expr). split; [|reflexivity].
    eexists. split; reflexivity.
  - exists Demo.source, Demo.database, {| rpi_Name := "autogen" |}.
    repeat split; reflexivity.
Qed.

Lemma validateArgs_clamps_witness :
  result (validateArgs Demo.store 1 2 10 5) =
    Done ("0000000000000002", "autogen", 10, 5, None) /\
  result (validateArgs Demo.store 1 2 0 (-3)) =
    Done ("0000000000000002", "autogen",
          -9223372036854775806, 9223372036854775806, None).
Proof.
  assert (Database_ (store_MetaClient Demo.store) (ID_String 2) = Some Demo.database)
    as Hdi by reflexivity.
  assert (RetentionPolicy Demo.database DefaultRetentionPolicyName
          = Some {| rpi_Name := "autogen" |}) as Hrpi by reflexivity.
  split.
  - destruct (validateArgs_clamps Demo.store 1 2 10 5 _ _ Hdi Hrpi)
      as (start' & end' & Hres & _ & _ & Hstart & Hend & _).
    rewrite Hres, Hstart, Hend by lia. reflexivity.
  - destruct (validateArgs_clamps Demo.store 1 2 0 (-3) _ _ Hdi Hrpi)
      as (start' & end' & Hres & Hstart & Hend & _).
    rewrite Hres, Hstart, Hend by lia. reflexivity.
Defined.


Lemma TagValues_dispatch_witness :
  trace (TagValues Demo.store (Demo.tagValuesRequest "region" (Some Demo.host_pred))) =
    [ MetaDatabase "0000000000000002";
      MetaShardGroupsByTimeRange "0000000000000002" "autogen"
        (-9223372036854775806) 10;
      StoreTagValues OpenAuthorizer (mk_slice [1%N])
        (Some (BinaryExpr AND
                 (BinaryExpr EQ (VarRef "_tagKey") (StringLiteral "region"))
                 (ParenExpr Demo.host_expr))) ].
Proof.
  assert (source_valid Demo.store
            (tv_TagsSource (Demo.tagValuesRequest "region" (Some Demo.host_pred)))
            Demo.readSource) as Hvalid.
  { exists Demo.source, Demo.database, {| rpi_Name := "autogen" |}.
    repeat split; reflexivity. }
  assert (metaPredicate
            (tv_Predicate (Demo.tagValuesRequest "region" (Some Demo.host_pred)))
          = inl (Some Demo.host_expr)) as Hmeta by reflexivity.
  destruct (TagValues_dispatch Demo.store _ _ _ Hvalid Hmeta) as (_ & _ & Hindex).
  apply (Hindex ltac:(vm_compute; discriminate) ltac:(vm_compute; discriminate)
                (mk_slice [1%N]) (Some Demo.host_expr)).
  - split; [reflexivity|discriminate].
  - reflexivity.
Defined.

Lemma tagValuesSlow_values_witness :
  exists names,
    result (tagValuesSlow Demo.store (Demo.attrs None) "host")
      = Done (Some (NewStringSliceIterator names), None) /\
    ascending names /\ "b" ∈ names /\ "c" ∉ names.
Proof.
  destruct (tagValuesSlow_values Demo.store (Demo.attrs None) "host"
              (mk_slice [1%N]) {| sc_rows := Demo.rows |})
    as (names & Hres & Hasc & Hiff & Hin).
  - vm_compute. reflexivity.
  - discriminate.
  - vm_compute. reflexivity.
  - apply Forall_forall. intros row Hrow c Hc. simpl in Hrow.
    unfold Demo.rows in Hrow. rewrite !elem_of_cons, elem_of_nil in Hrow.
    destruct Hrow as [->|[->|[->|[->|[]]]]]; simplify_eq/=;
      (split; [discriminate|repeat constructor; discriminate]).
  - exists names. split; [exact Hres|]. split; [exact Hasc|]. split.
    + apply (Hin (Demo.series
                    [("_field", "idle"); ("_measurement", "cpu"); ("host", "b")]
                    FloatArrayCursor [[1; 2]])).
      * repeat constructor.
      * eexists. split; [reflexivity|discriminate].
    + intros (row & Hrow & (c & Hc & Hpoints) & Hval)%Hiff.
      clear Hres Hasc Hiff Hin.
      simpl in Hrow. unfold Demo.rows in Hrow.
      rewrite !elem_of_cons, elem_of_nil in Hrow.
      destruct Hrow as [->|[->|[->|[->|[]]]]];
        vm_compute in Hval; vm_compute in Hc; congruence.
Defined.

Lemma TagKeys_union_witness :
  exists names,
    result (TagKeys Demo.store (Demo.tagKeysRequest (Demo.range 0 10) None))
      = Done (Some (NewStringSliceIterator names), None) /\
    ascending names /\ "_measurement" ∈ names /\ "_field" ∈ names /\ "host" ∈ names.
Proof.
  destruct (TagKeys_union Demo.store (Demo.tagKeysRequest (Demo.range 0 10) None)
              OpenAuthorizer (mk_slice [1%N]) None
              [ {| tkeys_Measurement := "cpu"; Keys := ["host"; "region"] |};
                {| tkeys_Measurement := "mem"; Keys := ["host"] |} ])
    as (names & Hres & Hasc & Hm & Hf & Hiff).
  - vm_compute. repeat constructor.
  - reflexivity.
  - exists names. (split; [exact Hres|]). (split; [exact Hasc|]).
    (split; [exact Hm|]). (split; [exact Hf|]).
    apply Hiff. right; right. eexists. (split; [constructor|]). simpl. constructor.
Defined.




(** ** The further properties on the reference instantiation *)

Lemma findShardIDs_flattens_witness :
  findShardIDs
    (Demo.store_with_groups
       [Demo.group 2 100 200 [3%N; 4%N]; Demo.group 1 0 100 [2%N; 1%N; 3%N]])
    "db" "rp" false 0 150 =
    ([MetaShardGroupsByTimeRange "db" "rp" 0 150],
     Done (mk_slice [2%N; 1%N; 3%N; 3%N; 4%N], None)) /\
  findShardIDs
    (Demo.store_with_groups
       [Demo.group 2 100 200 [3%N; 4%N]; Demo.group 1 0 100 [2%N; 1%N; 3%N]])
    "db" "rp" true 0 150 =
    ([MetaShardGroupsByTimeRange "db" "rp" 0 150],
     Done (mk_slice [3%N; 4%N; 2%N; 1%N; 3%N], None)).
Proof.
  assert (ShardGroupsByTimeRange_
            (store_MetaClient
               (Demo.store_with_groups
                  [Demo.group 2 100 200 [3%N; 4%N];
                   Demo.group 1 0 100 [2%N; 1%N; 3%N]])) "db" "rp" 0 150
          = ([Demo.group 2 100 200 [3%N; 4%N]; Demo.group 1 0 100 [2%N; 1%N; 3%N]],
             None)) as Hgroups by (vm_compute; reflexivity).
  split.
  - rewrite (findShardIDs_flattens _ _ _ false _ _ _ Hgroups ltac:(discriminate)).
    vm_compute. reflexivity.
  - rewrite (findShardIDs_flattens _ _ _ true _ _ _ Hgroups ltac:(discriminate)).
    vm_compute. reflexivity.
Defined.

Lemma TagValues_listing_witness :
  exists names,
    result (TagValues Demo.store (Demo.tagValuesRequest "host" None))
      = Done (Some (NewStringSliceIterator names), None) /\
    ascending names /\ "a" ∈ names /\ "b" ∈ names.
Proof.
  assert (StoreTagValues OpenAuthorizer (mk_slice [1%N])
            (Some (BinaryExpr EQ (VarRef "_tagKey") (StringLiteral "host")))
          ∈ trace (TagValues Demo.store (Demo.tagValuesRequest "host" None)))
    as Hin by (vm_compute; repeat constructor).
  destruct (TagValues_listing Demo.store _ _ _ _ _ Hin eq_refl)
    as (names & Hres & Hasc & Hiff).
  exists names. split; [exact Hres|]. split; [exact Hasc|]. split.
  - apply Hiff. eexists _, {| kv_Key := "host"; kv_Value := "a" |}.
    split; [constructor|]. split; [|reflexivity]. simpl. repeat constructor.
  - apply Hiff. eexists _, {| kv_Key := "host"; kv_Value := "b" |}.
    split; [constructor|]. split; [|reflexivity]. simpl. repeat constructor.
Defined.

Lemma MeasurementNames_ignores_range_witness :
  MeasurementNames Demo.store (Demo.attrs (Some Demo.host_expr)) =
  MeasurementNames Demo.store
    {| orgID := 7; db := "0000000000000002"; rp := "other";
       start := 90000; end_ := 100000; pred := Some Demo.host_expr |}.
Proof.
  assert ((HasFieldKeyOrValue Demo.host_expr).1 = false) as Hkey
    by (vm_compute; reflexivity).
  exact (proj1 (MeasurementNames_ignores_range Demo.store
                  (Demo.attrs (Some Demo.host_expr))
                  {| orgID := 7; db := "0000000000000002"; rp := "other";
                     start := 90000; end_ := 100000; pred := Some Demo.host_expr |}
                  eq_refl eq_refl
                  (or_intror (ex_intro _ Demo.host_expr (conj eq_refl Hkey))))).
Defined.

Lemma tagValuesSlow_without_cursor_witness :
  result (tagValuesSlow (ext := Demo.externals_with_cursor (None, None))
            Demo.store (Demo.attrs None) "host") = Done (None, None) /\
  result (tagValuesSlow
            (ext := Demo.externals_with_cursor
                      (Some {| sc_rows := Demo.rows |}, Some "index closed"))
            Demo.store (Demo.attrs None) "host") = Done (None, Some "index closed").
Proof.
  split.
  - destruct (tagValuesSlow_without_cursor
                (ext := Demo.externals_with_cursor (None, None))
                Demo.store (Demo.attrs None) "host" (mk_slice [1%N]))
      as [_ Hnil]; [vm_compute; reflexivity|discriminate|].
    rewrite (Hnil eq_refl). reflexivity.
  - destruct (tagValuesSlow_without_cursor
                (ext := Demo.externals_with_cursor
                          (Some {| sc_rows := Demo.rows |}, Some "index closed"))
                Demo.store (Demo.attrs None) "host" (mk_slice [1%N]))
      as [Herr _]; [vm_compute; reflexivity|discriminate|].
    rewrite (Herr _ _ eq_refl). reflexivity.
Defined.


Lemma tagValuesSlow_unknown_cursor_panics_witness :
  (exists msg,
     result (tagValuesSlow
               (ext := Demo.externals_with_cursor
                         (Some {| sc_rows := Demo.rows_unknown |}, None))
               Demo.store (Demo.attrs None) "host") = Panicked msg) /\
  last (trace (tagValuesSlow
                 (ext := Demo.externals_with_cursor
                           (Some {| sc_rows := Demo.rows_unknown |}, None))
                 Demo.store (Demo.attrs None) "host")) =
    Some (CursorClose {| cur_kind := UnknownCursor; cur_batches := [[3]] |}).
Proof.
  apply (tagValuesSlow_unknown_cursor_panics
           (ext := Demo.externals_with_cursor
                     (Some {| sc_rows := Demo.rows_unknown |}, None))
           Demo.store (Demo.attrs None) "host" (mk_slice [1%N])
           {| sc_rows := Demo.rows_unknown |}
           [Demo.series [("host", "b")] FloatArrayCursor [[1; 2]]]
           (Demo.series [("host", "a")] UnknownCursor [[3]])
           [Demo.series [("host", "c")] StringArrayCursor [[5]]]
           {| cur_kind := UnknownCursor; cur_batches := [[3]] |}).
  - vm_compute. reflexivity.
  - discriminate.
  - reflexivity.
  - reflexivity.
  - constructor; [|constructor]. intros c [= <-]. discriminate.
  - reflexivity.
  - reflexivity.
Defined.

Lemma measurementFields_closes_iterator_witness :
  trace (measurementFields Demo.store (Demo.attrs None)) =
    [ MetaShardGroupsByTimeRange "0000000000000002" "autogen"
        (-9223372036854775806) 10;
      StoreShardGroup (mk_slice [1%N]);
      GroupCreateIterator [1%N]
        {| ms_Database := "0000000000000002"; ms_RetentionPolicy := "autogen";
           ms_SystemIterator := "_fieldKeys" |}
        {| opt_OrgID := 1; opt_Condition := None; opt_Authorizer := OpenAuthorizer |};
      IteratorClose ] /\
  exists msg,
    result (measurementFields
              (Demo.store_with_iterator (Some OtherIterator, None))
              (Demo.attrs None)) = Panicked msg.
Proof.
  split.
  - destruct (measurementFields_closes_iterator Demo.store (Demo.attrs None)
                (mk_slice [1%N]) (or_introl eq_refl))
      as (Hclose & _ & _); [vm_compute; reflexivity|discriminate|].
    rewrite (Hclose (FloatIterator Demo.fieldKeys) eq_refl). reflexivity.
  - destruct (measurementFields_closes_iterator
                (Demo.store_with_iterator (Some OtherIterator, None))
                (Demo.attrs None) (mk_slice [1%N]) (or_introl eq_refl))
      as (_ & _ & Hpanic); [vm_compute; reflexivity|discriminate|].
    exact (Hpanic eq_refl).
Defined.

Lemma measurementFields_non_string_panics_witness :
  (exists msg,
     result (measurementFields
               (Demo.store_with_iterator
                  (Some (FloatIterator [ {| Aux := [AuxString "load"] |};
                                         {| Aux := [AuxOther] |};
                                         {| Aux := [AuxString "idle"] |} ]), None))
               (Demo.attrs None)) = Panicked msg) /\
  last (trace (measurementFields
                 (Demo.store_with_iterator
                    (Some (FloatIterator [ {| Aux := [AuxString "load"] |};
                                           {| Aux := [AuxOther] |};
                                           {| Aux := [AuxString "idle"] |} ]), None))
                 (Demo.attrs None))) = Some IteratorClose.
Proof.
  apply (measurementFields_non_string_panics
           (Demo.store_with_iterator
              (Some (FloatIterator [ {| Aux := [AuxString "load"] |};
                                     {| Aux := [AuxOther] |};
                                     {| Aux := [AuxString "idle"] |} ]), None))
           (Demo.attrs None) (mk_slice [1%N])
           [ {| Aux := [AuxString "load"] |} ] {| Aux := [AuxOther] |}
           [ {| Aux := [AuxString "idle"] |} ]).
  - left. reflexivity.
  - vm_compute. reflexivity.
  - discriminate.
  - reflexivity.
  - constructor; [discriminate|constructor].
  - reflexivity.
Defined.

Lemma cursorHasData_first_array_witness :
  trace (cursorHasData {| cur_kind := FloatArrayCursor; cur_batches := [[1; 2]; [3]] |})
    = [CursorNext {| cur_kind := FloatArrayCursor; cur_batches := [[1; 2]; [3]] |}] /\
  cursor_points {| cur_kind := FloatArrayCursor; cur_batches := [[1; 2]; [3]] |} <> [] /\
  cursor_points {| cur_kind := BooleanArrayCursor; cur_batches := [] |} = [].
Proof.
  split; [|split].
  - apply (cursorHasData_first_array
             {| cur_kind := FloatArrayCursor; cur_batches := [[1; 2]; [3]] |} true);
      reflexivity.
  - apply (cursorHasData_first_array
             {| cur_kind := FloatArrayCursor; cur_batches := [[1; 2]; [3]] |} true);
      reflexivity.
  - apply (cursorHasData_first_array
             {| cur_kind := BooleanArrayCursor; cur_batches := [] |} false);
      [reflexivity|constructor|reflexivity].
Defined.

Lemma ReadGroup_mutates_first_witness :
  exists rs,
    result (ReadGroup Demo.store (Demo.readGroupRequest (Demo.range 0 0))) =
      Done ({| rg_ReadSource := Some Demo.source;
               rg_Range := Demo.range (-9223372036854775806) 9223372036854775806;
               rg_Predicate := None |},
            (rs, None)).
Proof.
  assert (source_valid Demo.store
            (rg_ReadSource (Demo.readGroupRequest (Demo.range 0 0)))
            Demo.readSource) as Hvalid.
  { exists Demo.source, Demo.database, {| rpi_Name := "autogen" |}.
    repeat split; vm_compute; reflexivity. }
  assert (shards_found Demo.store Demo.readSource
            (rg_Range (Demo.readGroupRequest (Demo.range 0 0))) (mk_slice [1%N]))
    as Hfound.
  { split; [vm_compute; reflexivity|discriminate]. }
  destruct (ReadGroup_mutates_first Demo.store _ _ _ Hvalid Hfound) as [_ Hres].
  rewrite Hres. vm_compute. eexists. reflexivity.
Defined.

Lemma ReadFilter_outcomes_witness :
  ReadFilter Demo.store (Demo.readFilterRequest (Demo.range 0 10)) =
    ([ MetaDatabase "0000000000000002";
       MetaShardGroupsByTimeRange "0000000000000002" "autogen"
         (-9223372036854775806) 10;
       StoreShards (mk_slice [1%N]);
       IndexSeriesCursor None [ {| sh_id := 1 |} ] ],
     Done ({| rf_ReadSource := Some Demo.source;
              rf_Range := Demo.range (-9223372036854775806) 10;
              rf_Predicate := None |},
           (Some (NewFilteredResultSet (-9223372036854775806) 10
                    {| sc_rows := Demo.rows |}), None))).
Proof.
  assert (source_valid Demo.store
            (rf_ReadSource (Demo.readFilterRequest (Demo.range 0 10)))
            Demo.readSource) as Hvalid.
  { exists Demo.source, Demo.database, {| rpi_Name := "autogen" |}.
    repeat split; vm_compute; reflexivity. }
  assert (shards_found Demo.store Demo.readSource
            (rf_Range (Demo.readFilterRequest (Demo.range 0 10))) (mk_slice [1%N]))
    as Hfound.
  { split; [vm_compute; reflexivity|discriminate]. }
  rewrite (ReadFilter_outcomes Demo.store _ _ _ Hvalid Hfound).
  vm_compute. reflexivity.
Defined.

Lemma groups_without_shards_witness :
  result (findShardIDs (Demo.store_with_groups [Demo.group 1 0 100 []])
            "0000000000000002" "autogen" false (-9223372036854775806) 10)
    = Done (mk_slice [], None) /\
  result (TagKeys (Demo.store_with_groups [Demo.group 1 0 100 []])
            (Demo.tagKeysRequest (Demo.range 0 10) None))
    = Done (Some EmptyStringIterator, None).
Proof.
  assert (forall src, src = Some Demo.source ->
            source_valid (Demo.store_with_groups [Demo.group 1 0 100 []]) src
              Demo.readSource) as Hvalid.
  { intros src ->. exists Demo.source, Demo.database, {| rpi_Name := "autogen" |}.
    repeat split; vm_compute; reflexivity. }
  destruct (groups_without_shards
              (Demo.store_with_groups [Demo.group 1 0 100 []])
              (Demo.tagKeysRequest (Demo.range 0 10) None)
              (Demo.readFilterRequest (Demo.range 0 10))
              Demo.readSource [Demo.group 1 0 100 []]
              (Hvalid _ eq_refl) (Hvalid _ eq_refl) eq_refl)
    as (Hfind & Hkeys & _).
  - vm_compute. reflexivity.
  - discriminate.
  - vm_compute. repeat constructor.
  - split.
    + exact Hfind.
    + rewrite Hkeys. reflexivity.
Defined.

Lemma request_validation_first_witness :
  result (TagKeys Demo.store
            {| tk_TagsSource := Some {| TypeUrl := "Other"; Value := "" |};
               tk_Range := Demo.range 0 10; tk_Predicate := None |})
    = Done (None, Some "mismatched message type") /\
  result (TagValues Demo.store
            {| tv_TagsSource := None; tv_Range := Demo.range 0 10;
               tv_Predicate := None; tv_TagKey := "host" |})
    = Done (None, Some "missing read source").
Proof.
  destruct (request_validation_first Demo.store) as (_ & _ & Hkeys & Hvalues).
  split.
  - apply Hkeys. vm_compute. reflexivity.
  - apply Hvalues. vm_compute. reflexivity.
Defined.

Lemma index_error_passed_on_witness :
  result (TagKeys (Demo.store_failing_index "index closed")
            (Demo.tagKeysRequest (Demo.range 0 10) None))
    = Done (Some EmptyStringIterator, Some "index closed") /\
  result (TagValues (Demo.store_failing_index "index closed")
            (Demo.tagValuesRequest "host" None))
    = Done (None, Some "index closed").
Proof.
  destruct (index_error_passed_on (Demo.store_failing_index "index closed"))
    as (Hkeys & Hvalues & _).
  split.
  - apply (Hkeys _ OpenAuthorizer (mk_slice [1%N]) None).
    + vm_compute. repeat constructor.
    + reflexivity.
  - apply (Hvalues _ OpenAuthorizer (mk_slice [1%N])
             (Some (BinaryExpr EQ (VarRef "_tagKey") (StringLiteral "host")))).
    + vm_compute. repeat constructor.
    + reflexivity.
Defined.
